(** * Bristol council spending notebook: the clean-and-combine pipeline

    A shallow embedding of the code cells of [1_scrape_and_clean_data.ipynb]
    that rename, normalise, validate, combine and sanitise the monthly CSV
    files, with the properties of each stage.

    Conventions of the embedding.
    - A Python [str] is a [string] whose characters are Latin-1 code points
      (the files are decoded with [encoding='latin'], so every character of
      the pipeline is below 256); ['Â'] is character 194 and ['Ã'] is 195.
    - A Python [int] is a [Z]; [str(i)] is stdpp's [pretty].
    - A CSV file on disk is a table (a [DataFrame]: header and rows) whose
      text is still bytes; reading decodes the text with the encoding the
      call names and writing encodes it as UTF-8.  The table stands for
      what pandas reads from the file: the syntax of CSV and what pandas
      makes of it (quoting, type inference and number formats, the markers
      read as NaN, how repeated or empty header names are renamed, skipped
      bad lines, files that are not CSV at all) is outside the model, so
      nothing below says that a file is byte for byte what it was.
    - Every cell runs in a state-and-exception monad over the [world]: the
      two directories the notebook touches and the console.
    - [os.listdir] returns the names in an order the OS chooses, so each cell
      takes that returned list as its argument [listing]. *)

From Stdlib Require Import ZArith Lia Ascii String.
From stdpp Require Import base numbers list gmap strings pretty sorting.

Local Open Scope Z_scope.

(** ** Values, tables, the world *)

(** One element of a DataFrame: a string, an integer, a float (kept as a
    dyadic mantissa and exponent) or the missing value NaN. *)
Inductive cell : Type :=
  | CStr (s : string)
  | CInt (z : Z)
  | CFloat (mantissa exponent : Z)
  | CNaN.

Global Instance cell_eq_dec : EqDecision cell.
Proof. solve_decision. Defined.

Record DataFrame : Type := mkDataFrame {
  columns : list string;
  rows : list (list cell)
}.

Global Instance DataFrame_eq_dec : EqDecision DataFrame.
Proof. solve_decision. Defined.

(** [len(df)] *)
Definition df_len (df : DataFrame) : nat := length (rows df).

(** The cell at row [i], column position [j]. *)
Definition cell_at (df : DataFrame) (i j : nat) : option cell :=
  rows df !! i ≫= λ row, row !! j.

Inductive exn : Type :=
  | FileNotFoundError (path : string)
  | FileExistsError (path : string)
  | IndexError
  | ValueError
  | KeyError (key : string)
  | InvalidIndexError
  | AttributeError (attr : string)
  | UnicodeDecodeError.

Inductive result (A : Type) : Type :=
  | Ok (a : A)
  | Raise (e : exn).
Global Arguments Ok {A} a.
Global Arguments Raise {A} e.

Inductive platform : Type := Posix | Windows.

Record world : Type := mkWorld {
  csv_files : gmap string DataFrame;  (* the files of DIRECTORY = "csv_files/" *)
  cwd_files : gmap string DataFrame;  (* the files at the working root *)
  cwd : string;                       (* os.getcwd() *)
  stdout : list string                (* lines printed so far *)
}.

Definition set_csv_files (d : gmap string DataFrame) (w : world) : world :=
  mkWorld d (cwd_files w) (cwd w) (stdout w).
Definition set_cwd_files (d : gmap string DataFrame) (w : world) : world :=
  mkWorld (csv_files w) d (cwd w) (stdout w).
Definition set_stdout (o : list string) (w : world) : world :=
  mkWorld (csv_files w) (cwd_files w) (cwd w) o.

(** What [os.listdir(DIRECTORY)] may return in world [w]: every name of the
    directory once, in any order. *)
Definition is_listing (w : world) (listing : list string) : Prop :=
  NoDup listing ∧ ∀ fn, fn ∈ listing ↔ is_Some (csv_files w !! fn).

(** ** Strings *)

Definition is_digit (c : ascii) : bool :=
  match Ascii.is_nat c with Some _ => true | None => false end.

Fixpoint string_forallb (p : ascii → bool) (s : string) : bool :=
  match s with
  | "" => true
  | String c s' => p c && string_forallb p s'
  end.

Fixpoint string_filter (p : ascii → bool) (s : string) : string :=
  match s with
  | "" => ""
  | String c s' => if p c then String c (string_filter p s') else string_filter p s'
  end.

(** [s.endswith(suffix)] *)
Definition endswith (s suffix : string) : bool :=
  String.prefix (String.rev suffix) (String.rev s).

(** [p.rfind('.')] *)
Fixpoint rfind_dot (p : string) : option nat :=
  match p with
  | "" => None
  | String c p' =>
      match rfind_dot p' with
      | Some i => Some (S i)
      | None => if decide (c = "."%char) then Some 0%nat else None
      end
  end.

(** [os.path.splitext(p)] for a name without a directory separator: split at
    the last dot, unless only dots precede it. *)
Definition splitext (p : string) : string * string :=
  match rfind_dot p with
  | Some dotIndex =>
      if string_forallb (λ c, bool_decide (c = "."%char)) (String.substring 0 dotIndex p)
      then (p, "")
      else (String.substring 0 dotIndex p,
            String.substring dotIndex (String.length p - dotIndex) p)
  | None => (p, "")
  end.

(** [x.replace(old, new)] for a non-empty pattern [old]: occurrences are
    replaced from left to right without overlap; [skip] counts the characters
    of a matched occurrence still to be passed over. *)
Fixpoint str_replace_go (old new : string) (skip : nat) (x : string) : string :=
  match x with
  | "" => ""
  | String c x' =>
      match skip with
      | S k => str_replace_go old new k x'
      | O =>
          if String.prefix old x
          then new +:+ str_replace_go old new (String.length old - 1) x'
          else String c (str_replace_go old new 0 x')
      end
  end.
Definition str_replace (old new x : string) : string := str_replace_go old new 0 x.

(** ** Text encodings *)

Inductive encoding : Type := Latin1 | Utf8.

(** The UTF-8 bytes of one character (a code point below 256): itself below
    128, two bytes from there on. *)
Definition utf8_char (c : ascii) : string :=
  let n := N_of_ascii c in
  if (n <? 128)%N then String c ""
  else String (ascii_of_N (192 + n `div` 64))
         (String (ascii_of_N (128 + n `mod` 64)) "").

(** [s.encode('utf-8')] *)
Fixpoint encode_utf8 (s : string) : string :=
  match s with
  | "" => ""
  | String c s' => utf8_char c +:+ encode_utf8 s'
  end.

(** [b.decode('utf-8')]: a byte below 128 is a character, the lead bytes 194
    and 195 with a continuation byte spell the characters 128 to 255.  Other
    sequences are either not UTF-8 or spell characters beyond Latin-1, which
    [to_csv] never writes here and this model does not represent; both count
    as a decoding error. *)
Fixpoint decode_utf8 (b : string) : option string :=
  match b with
  | "" => Some ""
  | String b1 rest =>
      let n1 := N_of_ascii b1 in
      if (n1 <? 128)%N then String b1 <$> decode_utf8 rest
      else
        match rest with
        | String b2 rest' =>
            let n2 := N_of_ascii b2 in
            if ((n1 =? 194) || (n1 =? 195))%N && (128 <=? n2)%N && (n2 <? 192)%N
            then String (ascii_of_N ((n1 - 192) * 64 + (n2 - 128)))
                   <$> decode_utf8 rest'
            else None
        | "" => None
        end
  end.

Definition is_ascii (c : ascii) : bool := (N_of_ascii c <? 128)%N.

(** A table whose text (header names and string cells) is all ASCII. *)
Definition cell_ascii (x : cell) : Prop :=
  match x with
  | CStr s => string_forallb is_ascii s = true
  | _ => True
  end.
Definition df_ascii (df : DataFrame) : Prop :=
  Forall (λ c, string_forallb is_ascii c = true) (columns df)
  ∧ Forall (Forall cell_ascii) (rows df).

(** [b.decode(enc)]: in Latin-1 every byte is the character of that code. *)
Definition decode (enc : encoding) (b : string) : option string :=
  match enc with
  | Latin1 => Some b
  | Utf8 => decode_utf8 b
  end.

Definition decode_cell (enc : encoding) (x : cell) : option cell :=
  match x with
  | CStr b => CStr <$> decode enc b
  | _ => Some x
  end.

Definition encode_cell (x : cell) : cell :=
  match x with
  | CStr s => CStr (encode_utf8 s)
  | _ => x
  end.

(** The table read from the stored table [raw], and the table stored for
    [df]. *)
Definition decode_df (enc : encoding) (raw : DataFrame) : option DataFrame :=
  cols ← mapM (decode enc) (columns raw);
  rs ← mapM (mapM (decode_cell enc)) (rows raw);
  Some (mkDataFrame cols rs).

Definition encode_df (df : DataFrame) : DataFrame :=
  mkDataFrame (encode_utf8 <$> columns df)
              ((λ row : list cell, encode_cell <$> row) <$> rows df).

(** ** The monad of a notebook cell *)

Definition M (A : Type) : Type := world → result A * world.

Definition ret {A} (a : A) : M A := λ w, (Ok a, w).
Definition raise {A} (e : exn) : M A := λ w, (Raise e, w).
Definition bind {A B} (c : M A) (k : A → M B) : M B := λ w,
  match c w with
  | (Ok a, w') => k a w'
  | (Raise e, w') => (Raise e, w')
  end.
Definition lift {A} (r : result A) : M A := λ w, (r, w).

Notation "'let!' x ':=' c 'in' k" := (bind c (λ x, k))
  (at level 10, x name, c at level 100, k at level 200, only parsing).
Notation "c ';;' k" := (bind c (λ _, k))
  (at level 100, k at level 200, right associativity, only parsing).

(** [for x in l: body(x)] *)
Fixpoint for_ {A} (l : list A) (body : A → M unit) : M unit :=
  match l with
  | [] => ret tt
  | x :: l' => body x ;; for_ l' body
  end.

(** A [for] loop that carries local variables [s] from one iteration to the
    next. *)
Fixpoint for_fold {A S} (l : list A) (s : S) (body : S → A → M S) : M S :=
  match l with
  | [] => ret s
  | x :: l' => let! s' := body s x in for_fold l' s' body
  end.

(** A computation that leaves both directories as they are, however it
    ends. *)
Definition keeps_files {A} (c : M A) : Prop :=
  ∀ w, csv_files (c w).2 = csv_files w ∧ cwd_files (c w).2 = cwd_files w.

(** [print(line)] *)
Definition print (line : string) : M unit := λ w,
  (Ok tt, set_stdout (stdout w ++ [line]) w).

(** [exit()] in a notebook cell: the name is bound to the kernel's exit
    autocall, which asks the kernel to shut down once the cell is done and
    returns; the cell goes on with its next statement. *)
Definition exit : M unit := ret tt.

(** [pd.read_csv(os.path.join(DIRECTORY, filename), encoding=...)]; without
    the argument the encoding is UTF-8.  The stored table is handed over
    with its text decoded: what pandas does on top of that (type inference,
    NaN markers, renaming of repeated labels, the errors it raises on an
    empty or malformed file) is not modelled. *)
Definition read_csv (enc : encoding) (filename : string) : M DataFrame := λ w,
  match csv_files w !! filename with
  | Some raw =>
      match decode_df enc raw with
      | Some df => (Ok df, w)
      | None => (Raise UnicodeDecodeError, w)
      end
  | None => (Raise (FileNotFoundError filename), w)
  end.

(** [df.to_csv(os.path.join(DIRECTORY, filename), index=False)]: the table is
    stored with its text encoded as UTF-8; how pandas formats numbers and
    NaN is not modelled. *)
Definition to_csv (filename : string) (df : DataFrame) : M unit := λ w,
  (Ok tt, set_csv_files (<[filename := encode_df df]> (csv_files w)) w).

(** [pd.read_csv(path)] and [df.to_csv(path, index=False)] for a path at the
    working root. *)
Definition read_csv_cwd (path : string) : M DataFrame := λ w,
  match cwd_files w !! path with
  | Some raw =>
      match decode_df Utf8 raw with
      | Some df => (Ok df, w)
      | None => (Raise UnicodeDecodeError, w)
      end
  | None => (Raise (FileNotFoundError path), w)
  end.
Definition to_csv_cwd (path : string) (df : DataFrame) : M unit := λ w,
  (Ok tt, set_cwd_files (<[path := encode_df df]> (cwd_files w)) w).

(** [os.rename(DIRECTORY + src, DIRECTORY + dst)]: the source must exist; an
    existing destination is replaced silently on POSIX and refused on
    Windows. *)
Definition os_rename (os : platform) (src dst : string) : M unit := λ w,
  match csv_files w !! src with
  | None => (Raise (FileNotFoundError src), w)
  | Some df =>
      match os, csv_files w !! dst with
      | Windows, Some _ => (Raise (FileExistsError dst), w)
      | _, _ => (Ok tt, set_csv_files (<[dst := df]> (delete src (csv_files w))) w)
      end
  end.

(** ** Sorting *)

(** A stable insertion sort, the model of Python's stable [sorted]. *)
Fixpoint insert_by {A} (le : A → A → bool) (x : A) (l : list A) : list A :=
  match l with
  | [] => [x]
  | y :: l' => if le x y then x :: y :: l' else y :: insert_by le x l'
  end.
Definition sort_by {A} (le : A → A → bool) (l : list A) : list A :=
  foldr (insert_by le) [] l.

(** [sorted(names)]: strings compare by code point. *)
Definition sorted (names : list string) : list string := sort_by String.leb names.

(** The items of a natural-sort key: a text or a number. *)
Inductive chunk : Type :=
  | Txt (s : string)
  | Num (n : N).

(** The maximal runs of a name, each marked as a digit run or not. *)
Fixpoint runs (s : string) : list (bool * string) :=
  match s with
  | "" => []
  | String c s' =>
      let d := is_digit c in
      match runs s' with
      | (d', r) :: rest =>
          if Bool.eqb d d' then (d, String c r) :: rest
          else (d, String c "") :: (d', r) :: rest
      | [] => [(d, String c "")]
      end
  end.

(** [int(s)] for a digit run [s], on top of the digits already read. *)
Fixpoint int_of_digits (acc : N) (s : string) : N :=
  match s with
  | "" => acc
  | String c s' =>
      int_of_digits (10 * acc + N.of_nat (default 0%nat (Ascii.is_nat c)))%N s'
  end.

(** Modelled from the spec: the key by which the external natsort package
    (not part of the sources) compares names.  The spec's natural sort
    "compares embedded numeric substrings by numeric value rather than
    character-by-character": a name is cut into maximal runs of digits and of
    other characters, a digit run counts as the number it spells, and a key
    that starts with a number gets an empty text in front. *)
Definition natsort_key (s : string) : list chunk :=
  let items :=
    (λ r : bool * string, if r.1 then Num (int_of_digits 0 r.2) else Txt r.2)
      <$> runs s in
  match items with
  | Num _ :: _ => Txt "" :: items
  | _ => items
  end.

(** Items at the same position of two keys are of the same kind (keys
    alternate text and number, text first); the mixed cases are there only to
    make the function total. *)
Definition chunk_compare (a b : chunk) : comparison :=
  match a, b with
  | Txt s, Txt t => String.compare s t
  | Num m, Num n => N.compare m n
  | Num _, Txt _ => Lt
  | Txt _, Num _ => Gt
  end.

Fixpoint key_compare (k1 k2 : list chunk) : comparison :=
  match k1, k2 with
  | [], [] => Eq
  | [], _ :: _ => Lt
  | _ :: _, [] => Gt
  | a :: k1', b :: k2' =>
      match chunk_compare a b with
      | Eq => key_compare k1' k2'
      | c => c
      end
  end.

Definition natsort_le (a b : string) : bool :=
  match key_compare (natsort_key a) (natsort_key b) with
  | Gt => false
  | _ => true
  end.

(** Modelled from the spec: [natsorted] of the external natsort package, a
    stable sort by [natsort_key]; keys compare item by item, a proper prefix
    first. *)
Definition natsorted (names : list string) : list string := sort_by natsort_le names.

(** ** Cell: rename the files to [{year}-{month}.csv] *)

(** The name the scraper gives its i-th download: [f"{str(i)}.csv"]. *)
Definition scraped_name (i : nat) : string := pretty i +:+ ".csv".

(** [f'{start_year}-{start_month}.csv'] *)
Definition label (start_year start_month : Z) : string :=
  pretty start_year +:+ "-" +:+ pretty start_month +:+ ".csv".

(** The update of the loop variables at the end of one iteration. *)
Definition decrement (st : Z * Z) : Z * Z :=
  let '(start_year, start_month) := st in
  let start_month := start_month - 1 in
  if decide (start_month = 0) then (start_year - 1, 12)
  else (start_year, start_month).

(** One iteration of the loop: rename, then step the month back. *)
Definition rename_step (os : platform) (st : Z * Z) (filename : string) : M (Z * Z) :=
  os_rename os filename (label st.1 st.2) ;;
  ret (decrement st).

Definition rename_cell (os : platform) (start_year start_month : Z)
    (listing : list string) : M (Z * Z) :=
  let! wd := (λ w, (Ok (cwd w), w)) in
  print wd ;;
  let file_list := natsorted listing in
  for_fold file_list (start_year, start_month) (rename_step os).

(** The [os.rename] calls the loop issues, in order, as (source, destination)
    pairs. *)
Fixpoint rename_calls (st : Z * Z) (file_list : list string) : list (string * string) :=
  match file_list with
  | [] => []
  | filename :: rest => (filename, label st.1 st.2) :: rename_calls (decrement st) rest
  end.

Definition run_calls (os : platform) (calls : list (string * string)) : M unit :=
  for_ calls (λ call, os_rename os call.1 call.2).

Definition label_of (ym : Z * Z) : string := label ym.1 ym.2.

(** The spec's wording of one step back in the calendar: "a decrement from
    month 1 wraps to month 12 of the previous year". *)
Definition month_before (ym : Z * Z) : Z * Z :=
  if decide (ym.2 = 1) then (ym.1 - 1, 12) else (ym.1, ym.2 - 1).

(** The calendar month [n] months before [ym], in closed form. *)
Definition months_back (ym : Z * Z) (n : nat) : Z * Z :=
  let t := 12 * ym.1 + (ym.2 - 1) - Z.of_nat n in
  (t `div` 12, t `mod` 12 + 1).

(** ** Cell: normalise the schema of every file *)

(** The dictionary [rename_columns], in insertion order. *)
Definition rename_columns : list (string * string) :=
  [ ("Name", "Supplier");
    ("Description Line 1", "Description 1");
    ("Description Line 2", "Description 2");
    ("Description Line 3", "Description 3") ].

Definition del_columns : list string :=
  [ "Body"; "Body Name"; "Transaction Number"; "Ref";
    "Unnamed: 8"; "Unnamed: 9"; "Unnamed: 0" ].

(** [df.rename(columns={key: value}, inplace=True)] *)
Definition df_rename (key value : string) (df : DataFrame) : DataFrame :=
  mkDataFrame ((λ c, if decide (c = key) then value else c) <$> columns df) (rows df).

Definition insert_at {A} (loc : nat) (x : A) (l : list A) : list A :=
  take loc l ++ x :: drop loc l.

(** [df.insert(loc, column, value)] with a scalar [value]: the label must be
    new and [loc] at most the number of columns. *)
Definition df_insert (loc : nat) (column : string) (value : cell)
    (df : DataFrame) : result DataFrame :=
  if decide (column ∈ columns df) then Raise ValueError
  else if decide (loc ≤ length (columns df))%nat then
    Ok (mkDataFrame (insert_at loc column (columns df))
                    (insert_at loc value <$> rows df))
  else Raise IndexError.

(** The cells of [row] that stay when the columns labelled [name] go. *)
Definition drop_cells (cols : list string) (name : string) (row : list cell) : list cell :=
  (filter (λ p, p.1 ≠ name) (zip cols row)).*2.

(** [df.drop(columns=[name])]: every column with that label goes; a label
    that is not there is a KeyError. *)
Definition df_drop (name : string) (df : DataFrame) : result DataFrame :=
  if decide (name ∈ columns df) then
    Ok (mkDataFrame (filter (λ c, c ≠ name) (columns df))
                    (drop_cells (columns df) name <$> rows df))
  else Raise (KeyError name).

(** The loop over [rename_columns.items()]; [kv] is one (key, value) item. *)
Definition rename_guarded (df : DataFrame) (kv : string * string) : DataFrame :=
  if decide (kv.1 ∈ columns df) then df_rename kv.1 kv.2 df else df.

Definition rename_pass (df : DataFrame) : DataFrame :=
  foldl rename_guarded df rename_columns.

(** The date column taken from the file name when the file has none. *)
Definition pay_date_pass (filename : string) (df : DataFrame) : result DataFrame :=
  if decide ("Pay Date" ∈ columns df) then Ok df
  else
    let date := splitext filename in
    df_insert 2 "Pay Date" (CStr date.1) df.

(** The loop over [del_columns]. *)
Fixpoint drop_pass (names : list string) (df : DataFrame) : result DataFrame :=
  match names with
  | [] => Ok df
  | name :: names' =>
      if decide (name ∈ columns df) then
        match df_drop name df with
        | Ok df' => drop_pass names' df'
        | Raise e => Raise e
        end
      else drop_pass names' df
  end.

(** What the loop body does to the table of one file, between reading and
    writing it. *)
Definition normalise (filename : string) (df : DataFrame) : result DataFrame :=
  match pay_date_pass filename (rename_pass df) with
  | Ok df' => drop_pass del_columns df'
  | Raise e => Raise e
  end.

(** A table in normalised form: none of the old names of [rename_columns],
    a Pay Date column, none of [del_columns]. *)
Definition normalized_form (df : DataFrame) : Prop :=
  Forall (λ key, key ∉ columns df) rename_columns.*1
  ∧ "Pay Date" ∈ columns df
  ∧ Forall (λ name, name ∉ columns df) del_columns.

Global Instance normalized_form_dec df : Decision (normalized_form df).
Proof. unfold normalized_form. apply _. Defined.

(** The entries the cells look at. *)
Definition is_csv (filename : string) : Prop := endswith filename ".csv" = true.

Global Instance is_csv_dec filename : Decision (is_csv filename).
Proof. unfold is_csv. apply _. Defined.

(** The table the normaliser computes for the entry [filename] of world [w],
    when it gets that far. *)
Definition normalised_file (w : world) (filename : string) : option DataFrame :=
  match csv_files w !! filename with
  | Some raw => match normalise filename raw with Ok df' => Some df' | Raise _ => None end
  | None => None
  end.

(** The entries whose name the normaliser prints: the [.csv] entries whose
    normalised table does not have 6 columns. *)
Definition flagged (w : world) (filename : string) : Prop :=
  is_csv filename
  ∧ ∃ df', normalised_file w filename = Some df' ∧ length (columns df') ≠ 6%nat.

Global Instance flagged_dec w filename : Decision (flagged w filename).
Proof.
  unfold flagged. destruct (normalised_file w filename) as [df'|].
  - destruct (decide (is_csv filename ∧ length (columns df') ≠ 6%nat)) as [H|H].
    + left. destruct H. eauto.
    + right. intros (? & ? & [= <-] & ?). tauto.
  - right. by intros (? & ? & ? & ?).
Defined.

(** The body of the loop for one directory entry. *)
Definition normalise_file (filename : string) : M unit :=
  if endswith filename ".csv" then
    let! df := read_csv Latin1 filename in
    let! df := lift (normalise filename df) in
    (if decide (length (columns df) ≠ 6%nat) then print filename else ret tt) ;;
    to_csv filename df
  else ret tt.

Definition normalise_cell (listing : list string) : M unit :=
  for_ listing normalise_file.

(** ** Cell: check that all files have the same column names *)

(** The header of the entry [filename], when there is such a file. *)
Definition columns_of (w : world) (filename : string) : option (list string) :=
  raw ← csv_files w !! filename; df ← decode_df Utf8 raw; Some (columns df).

Definition check_file (column_names : list string) (file : string) : M unit :=
  let! next_file := read_csv Utf8 file in
  if decide (columns next_file ≠ column_names) then
    print ("Column names in " +:+ file +:+ " do not match") ;;
    exit
  else ret tt.

Definition validate_cell (listing : list string) : M unit :=
  let csv_files := sorted listing in
  match csv_files with
  | [] => raise IndexError
  | first :: rest =>
      let! first_file := read_csv Utf8 first in
      let column_names := columns first_file in
      for_ rest (check_file column_names) ;;
      print "all columns match!"
  end.

(** [f'Column names in {format(file)} do not match'] *)
Definition mismatch_line (file : string) : string :=
  "Column names in " +:+ file +:+ " do not match".

(** The entries of [files] whose header is not [column_names]. *)
Definition mismatches (w : world) (column_names : list string) (files : list string)
    : list string :=
  filter (λ fn, columns_of w fn ≠ Some column_names) files.

(** ** Cell: combine the files *)

(** The columns of the frames in order of first appearance. *)
Definition union_columns (frames : list DataFrame) : list string :=
  foldl (λ acc df, acc ++ filter (λ c, c ∉ acc) (columns df)) [] frames.

(** The value of [row] (a row of a table with columns [cols]) under label
    [c]; NaN when the table has no such column. *)
Definition row_get (cols : list string) (row : list cell) (c : string) : cell :=
  match list_find (λ p, p.1 = c) (zip cols row) with
  | Some (_, (_, v)) => v
  | None => CNaN
  end.

Definition reindex_row (cols target : list string) (row : list cell) : list cell :=
  row_get cols row <$> target.

(** [pd.concat(frames, ignore_index=True)]: no frames is a ValueError; frames
    with one and the same header are stacked; otherwise every frame is
    realigned to the union of the headers, which pandas refuses when a header
    has a repeated label.  Cell values are carried over as they are: the
    change of dtype pandas makes when it realigns or mixes columns (integers
    becoming floats) is not modelled. *)
Definition pd_concat (frames : list DataFrame) : result DataFrame :=
  match frames with
  | [] => Raise ValueError
  | df0 :: _ =>
      if decide (Forall (λ df, columns df = columns df0) frames) then
        Ok (mkDataFrame (columns df0) (frames ≫= rows))
      else if decide (Forall (λ df, NoDup (columns df)) frames) then
        let cols := union_columns frames in
        Ok (mkDataFrame cols
              (frames ≫= λ df, reindex_row (columns df) cols <$> rows df))
      else Raise InvalidIndexError
  end.

(** The loop that reads every [.csv] entry into the list [dataframes]. *)
Fixpoint read_all (listing : list string) (dataframes : list DataFrame)
    : M (list DataFrame) :=
  match listing with
  | [] => ret dataframes
  | filename :: rest =>
      if endswith filename ".csv" then
        let! df := read_csv Utf8 filename in
        read_all rest (dataframes ++ [df])
      else read_all rest dataframes
  end.

(** The tables of the [.csv] entries of a listing, in listing order. *)
Definition csv_frames (w : world) (listing : list string) : list DataFrame :=
  omap (λ filename, raw ← csv_files w !! filename; decode_df Utf8 raw)
       (filter is_csv listing).

Definition combine_cell (listing : list string) : M unit :=
  let! dataframes := read_all listing [] in
  let! combined_df := lift (pd_concat dataframes) in
  to_csv_cwd "bristol_spending_data.csv" combined_df.

(** The header the spec calls canonical. *)
Definition canonical_header : list string :=
  [ "Supplier"; "Description 1"; "Description 2"; "Description 3";
    "Pay Date"; "Amount" ].

(** ** Cell: remove the mis-decoded characters *)

(** ['Â'] and ['Ã'], one-character strings. *)
Definition chars_to_remove : list string :=
  [ String "194"%char ""; String "195"%char "" ].

(** A character is denied when it is one of [chars_to_remove]. *)
Definition denied (c : ascii) : bool := bool_decide (String c "" ∈ chars_to_remove).

Definition clean_text (x : cell) (chars_to_remove : list string) : cell :=
  match x with
  | CStr s => CStr (foldl (λ x char, str_replace char "" x) s chars_to_remove)
  | _ => x
  end.

(** [df.applymap(f)] *)
Definition applymap (f : cell → cell) (df : DataFrame) : DataFrame :=
  mkDataFrame (columns df) ((λ row : list cell, f <$> row) <$> rows df).

Definition sanitise_cell : M unit :=
  let! df := read_csv_cwd "bristol_spending_data.csv" in
  let df_cleaned := applymap (λ x, clean_text x chars_to_remove) df in
  to_csv_cwd "bristol_spending_data_final.csv" df_cleaned.

(** ** Cell: move trailing signs of the amounts to the front *)

(** [df.<name>]: attribute access falls back to the column of that label and
    is an AttributeError when there is none. *)
Definition df_getattr (df : DataFrame) (name : string) : result (list cell) :=
  if decide (name ∈ columns df) then Ok ((λ row, row_get (columns df) row name) <$> rows df)
  else Raise (AttributeError name).

Section SignPass.

(** The rest of the expression, [.mask(...).astype('float')] on the column
    found: it parses floats, which is outside this model, so it is taken as
    given.  Its value is not assigned to anything. *)
Variable mask_astype_float : list cell → result unit.

Definition sign_cell : M unit :=
  let! df := read_csv_cwd "bristol_spending_data.csv" in
  let! num := lift (df_getattr df "num") in
  lift (mask_astype_float num).

End SignPass.

(** ** Example inputs *)

(** A file in normalised form as a first pass of the normaliser leaves it:
    one of its cells holds the pound sign, in UTF-8 the bytes 194 163. *)
Definition pound_file : DataFrame :=
  mkDataFrame canonical_header
    [[CStr "ACME"; CStr (String "194" (String "163" "500 grant")); CStr "x"; CStr "y";
      CStr "2023-02-01"; CStr "500.00"]].

Definition pound_world : world :=
  mkWorld {["2023-2.csv" := pound_file]} ∅ "/" [].

(** A monthly file without a date column, under its old column names. *)
Definition undated_file : DataFrame :=
  mkDataFrame
    ["Name"; "Description Line 1"; "Description Line 2"; "Description Line 3"; "Amount"]
    [[CStr "ACME"; CStr "grant"; CStr "x"; CStr "y"; CStr "500.00"]].

Definition undated_world : world :=
  mkWorld {["2023-2.csv" := undated_file]} ∅ "/" [].

(** ** Cell: download the CSV files *)

(** What [requests.get(link, headers=HEADERS)] comes to: a response with its
    body (whatever its status, which the cell does not look at) or an
    exception with its message. *)
Inductive response : Type :=
  | Content (body : string)
  | Failed (message : string).

(** The state of the download loop: the staging directory
    "csv_files original scrape/" ([None] when there is no such directory),
    the counter [i] and the console. *)
Record staging : Type := mkStaging {
  scrape_files : option (gmap string string);
  counter_i : nat;
  console : list string
}.

(** [f"Error downloading CSV file from {link}: {e}"] *)
Definition download_error (link message : string) : string :=
  "Error downloading CSV file from " +:+ link +:+ ": " +:+ message.

(** The message of the FileNotFoundError that [open(path, "wb")] raises when
    the directory of [path] is missing. *)
Definition no_such_file (path : string) : string :=
  "[Errno 2] No such file or directory: '" +:+ path +:+ "'".

(** One iteration of the download loop on a link and what requesting it
    came to: the body is written to [{i}.csv] and [i] goes up; an exception,
    from the request or from [open], is printed and the loop goes on. *)
Definition download_step (st : staging) (fetch : string * response) : staging :=
  match fetch.2 with
  | Failed message =>
      mkStaging (scrape_files st) (counter_i st)
                (console st ++ [download_error fetch.1 message])
  | Content body =>
      match scrape_files st with
      | Some files =>
          mkStaging (Some (<[scraped_name (counter_i st) := body]> files))
                    (S (counter_i st)) (console st)
      | None =>
          mkStaging None (counter_i st)
            (console st
             ++ [download_error fetch.1
                   (no_such_file
                      ("csv_files original scrape/" +:+ scraped_name (counter_i st)))])
      end
  end.

(** The download cell: [i = 0], then the loop over the links, each with what
    requesting it came to. *)
Definition download_cell (fetches : list (string * response))
    (files : option (gmap string string)) (out : list string) : staging :=
  foldl download_step (mkStaging files 0 out) fetches.

(** The bodies of the requests that returned a response, in order. *)
Definition bodies (fetches : list (string * response)) : list string :=
  omap (λ fetch, match fetch.2 with Content body => Some body | Failed _ => None end)
       fetches.

(** The lines printed for the requests that raised. *)
Definition failure_lines (fetches : list (string * response)) : list string :=
  omap (λ fetch, match fetch.2 with
                 | Failed message => Some (download_error fetch.1 message)
                 | Content _ => None
                 end) fetches.

(** ** Cell: remove the quote characters from the amounts *)

(** [series.replace(to_replace, value)] on one element: an element equal to
    [to_replace] becomes [value]. *)
Definition series_replace (to_replace value x : cell) : cell :=
  if decide (x = to_replace) then value else x.

(** [df[name] = f(df[name])] for an elementwise [f]: a KeyError when there is
    no column [name]. *)
Definition df_map_column (name : string) (f : cell → cell) (df : DataFrame)
    : result DataFrame :=
  if decide (name ∈ columns df) then
    Ok (mkDataFrame (columns df)
          (zip_with (λ c x, if decide (c = name) then f x else x) (columns df)
             <$> rows df))
  else Raise (KeyError name).

Definition quote_cell : M unit :=
  let! df := read_csv_cwd "bristol_spending_data.csv" in
  let! df := lift (df_map_column "Amount"
                     (series_replace (CStr (String "034" "")) (CStr "")) df) in
  to_csv_cwd "bristol_spending_data_final.csv" df.

(** ** Vocabulary of the further properties *)

(** A table is rectangular: every row has one cell per column. *)
Definition df_wf (df : DataFrame) : Prop :=
  Forall (λ row, length row = length (columns df)) (rows df).

(** The name a column has after the renames. *)
Definition rename_name (c : string) : string :=
  match list_find (λ kv, kv.1 = c) rename_columns with
  | Some (_, kv) => kv.2
  | None => c
  end.

(** The cells of [row] under the columns that are not in [names]. *)
Definition keep_cells (cols names : list string) (row : list cell) : list cell :=
  (filter (λ p, p.1 ∉ names) (zip cols row)).*2.

(** The header with a Pay Date column put in third place when it has none. *)
Definition with_pay_date {A} (cols : list string) (x : A) (l : list A) : list A :=
  if decide ("Pay Date" ∈ cols) then l else insert_at 2 x l.

(** * Properties *)

(** A decidable closed fact, by evaluation. *)
Ltac by_compute := apply (bool_decide_unpack _); vm_compute; exact I.

(** ** The monad *)

Lemma bind_ok {A B} (c : M A) (k : A → M B) w a w' :
  c w = (Ok a, w') → bind c k w = k a w'.
Proof. unfold bind. by intros ->. Qed.

Lemma bind_raise {A B} (c : M A) (k : A → M B) w e w' :
  c w = (Raise e, w') → bind c k w = (Raise e, w').
Proof. unfold bind. by intros ->. Qed.

Lemma bind_ext {A B} (c : M A) (k1 k2 : A → M B) w :
  (∀ a w', k1 a w' = k2 a w') → bind c k1 w = bind c k2 w.
Proof. intros E. unfold bind. destruct (c w) as [[a|e] w']; [apply E|done]. Qed.

(** ** Sorting *)

Lemma insert_by_perm {A} (le : A → A → bool) x l : insert_by le x l ≡ₚ x :: l.
Proof.
  induction l as [|y l IH]; simpl; [done|].
  destruct (le x y); [done|]. rewrite IH. apply Permutation_swap.
Qed.

Lemma sort_by_perm {A} (le : A → A → bool) l : sort_by le l ≡ₚ l.
Proof.
  induction l as [|x l IH]; simpl; [done|].
  fold (sort_by le l). by rewrite insert_by_perm, IH.
Qed.

Lemma natsorted_perm names : natsorted names ≡ₚ names.
Proof. apply sort_by_perm. Qed.

Lemma sorted_perm names : sorted names ≡ₚ names.
Proof. apply sort_by_perm. Qed.

Lemma natsorted_length names : length (natsorted names) = length names.
Proof. by rewrite natsorted_perm. Qed.

Lemma insert_by_sorted {A} (le : A → A → bool) x l :
  (∀ a b, le a b = false → le b a = true) →
  (∀ a b c, le a b = true → le b c = true → le a c = true) →
  StronglySorted (λ a b, le a b = true) l →
  StronglySorted (λ a b, le a b = true) (insert_by le x l).
Proof.
  intros Htot Htrans. induction 1 as [|y l Hs IH Hy]; simpl.
  - repeat constructor.
  - destruct (le x y) eqn:E.
    + constructor; [by constructor|]. constructor; [done|].
      eapply Forall_impl; [exact Hy|]. intros z. by apply Htrans.
    + constructor; [done|]. rewrite insert_by_perm. constructor; [|done].
      by apply Htot.
Qed.

Lemma sort_by_sorted {A} (le : A → A → bool) l :
  (∀ a b, le a b = false → le b a = true) →
  (∀ a b c, le a b = true → le b c = true → le a c = true) →
  StronglySorted (λ a b, le a b = true) (sort_by le l).
Proof.
  intros Htot Htrans. induction l as [|x l IH]; simpl; [constructor|].
  by apply insert_by_sorted.
Qed.

(** [sorted] puts the names in ascending order of code points. *)
Lemma sorted_ascending names :
  StronglySorted (λ a b, String.leb a b = true) (sorted names).
Proof.
  apply sort_by_sorted.
  - intros a b E. destruct (String.leb_total a b) as [?|?]; congruence.
  - intros a b c H1 H2. apply Is_true_true. apply Is_true_true in H1, H2.
    by apply (transitivity (R := String.le) (y := b)).
Qed.

Lemma sorted_head_least names first rest fn :
  sorted names = first :: rest → fn ∈ names → String.leb first fn = true.
Proof.
  intros E Hfn. pose proof (sorted_ascending names) as Hs. rewrite E in Hs.
  rewrite <- (sorted_perm names), E in Hfn.
  apply elem_of_cons in Hfn as [->|Hfn].
  - apply Is_true_true. apply (reflexivity (R := String.le)).
  - apply StronglySorted_inv in Hs as [_ Hall]. rewrite Forall_forall in Hall. auto.
Qed.

(** C9: the natural sort puts "2.csv", "10.csv", "1.csv" in the order
    "1.csv", "2.csv", "10.csv", which is not the order "1.csv", "10.csv",
    "2.csv" that the plain sort by code points gives. *)
Theorem natsorted_numeric_order :
  natsorted ["2.csv"; "10.csv"; "1.csv"] = ["1.csv"; "2.csv"; "10.csv"]
  ∧ sorted ["2.csv"; "10.csv"; "1.csv"] = ["1.csv"; "10.csv"; "2.csv"]
  ∧ natsorted ["2.csv"; "10.csv"; "1.csv"] ≠ sorted ["2.csv"; "10.csv"; "1.csv"].
Proof. by vm_compute. Qed.

(** ** Decimal numerals *)

Lemma app_String a s t : String a s +:+ t = String a (s +:+ t).
Proof. done. Qed.

Lemma app_empty_l t : "" +:+ t = t.
Proof. done. Qed.

Lemma is_digit_pretty_N_char x : is_digit (pretty_N_char x) = true.
Proof. unfold pretty_N_char. by repeat case_match. Qed.

Lemma pretty_N_go_digits x : ∀ s,
  ∃ ds, pretty_N_go x s = ds +:+ s ∧ string_forallb is_digit ds = true
        ∧ ((0 < x)%N → ds ≠ "").
Proof.
  induction (N.lt_wf_0 x) as [x _ IH]; intros s.
  destruct (decide (x = 0)%N) as [->|Hx].
  - exists "". rewrite pretty_N_go_0. split_and!; [done..|lia].
  - rewrite pretty_N_go_step by lia.
    destruct (IH (x `div` 10)%N) with (s := String (pretty_N_char (x `mod` 10)) s)
      as (ds & -> & Hds & _).
    { apply N.div_lt; lia. }
    exists (ds +:+ String (pretty_N_char (x `mod` 10)) "").
    split_and!.
    + clear. induction ds as [|a ds IHds]; [done|]. rewrite !app_String. by f_equal.
    + clear -Hds. induction ds as [|a ds IHds].
      * rewrite app_empty_l. simpl. by rewrite is_digit_pretty_N_char.
      * rewrite app_String. simpl in *. apply andb_prop in Hds as [-> ?]. auto.
    + intros _. by destruct ds.
Qed.

Lemma pretty_N_digits (n : N) :
  string_forallb is_digit (pretty n) = true ∧ pretty n ≠ "".
Proof.
  unfold pretty, pretty_N. case_decide as Hn; [done|].
  destruct (pretty_N_go_digits n "") as (ds & -> & Hds & Hne).
  assert (ds +:+ "" = ds) as ->.
  { clear. induction ds as [|a ds IH]; [done|]. rewrite app_String. by f_equal. }
  split; [done|]. apply Hne. lia.
Qed.

(** A digit run followed by a non-digit determines both. *)
Lemma digits_then_stop ds1 : ∀ ds2 c1 c2 r1 r2,
  string_forallb is_digit ds1 = true → string_forallb is_digit ds2 = true →
  is_digit c1 = false → is_digit c2 = false →
  ds1 +:+ String c1 r1 = ds2 +:+ String c2 r2 →
  ds1 = ds2 ∧ String c1 r1 = String c2 r2.
Proof.
  induction ds1 as [|a ds1 IH]; intros [|b ds2] c1 c2 r1 r2 H1 H2 Hc1 Hc2 E;
    rewrite ?app_String, ?app_empty_l in E; simpl in *.
  - done.
  - simplify_eq. apply andb_prop in H2 as [? _]. congruence.
  - simplify_eq. apply andb_prop in H1 as [? _]. congruence.
  - apply andb_prop in H1 as [_ H1]. apply andb_prop in H2 as [_ H2].
    injection E as -> E. destruct (IH _ _ _ _ _ H1 H2 Hc1 Hc2 E) as [-> ?]. done.
Qed.

(** [str(z)] is an optional minus sign and a non-empty digit run. *)
Lemma pretty_Z_shape (z : Z) :
  ∃ ds, string_forallb is_digit ds = true ∧ ds ≠ ""
        ∧ (pretty z = ds ∨ pretty z = String "-" ds).
Proof.
  destruct z as [|p|p]; unfold pretty, pretty_Z.
  - exists "0". by split_and!; [..|left].
  - exists (pretty (Npos p)). destruct (pretty_N_digits (Npos p)). by split_and!; [..|left].
  - exists (pretty (Npos p)). destruct (pretty_N_digits (Npos p)). by split_and!; [..|right].
Qed.

Lemma numeral_then_stop (z1 z2 : Z) c1 c2 r1 r2 :
  is_digit c1 = false → is_digit c2 = false →
  pretty z1 +:+ String c1 r1 = pretty z2 +:+ String c2 r2 →
  z1 = z2 ∧ String c1 r1 = String c2 r2.
Proof.
  intros Hc1 Hc2 E.
  destruct (pretty_Z_shape z1) as (d1 & Hd1 & Hn1 & S1).
  destruct (pretty_Z_shape z2) as (d2 & Hd2 & Hn2 & S2).
  assert (pretty z1 = pretty z2 ∧ String c1 r1 = String c2 r2) as [Hp ?];
    [|split; [by apply (inj pretty)|done]].
  destruct S1 as [S1|S1], S2 as [S2|S2]; rewrite S1, S2 in E |- *;
    rewrite ?app_String in E.
  - destruct (digits_then_stop _ _ _ _ _ _ Hd1 Hd2 Hc1 Hc2 E) as [-> ?]. done.
  - destruct d1 as [|a d1]; [done|]. rewrite app_String in E. injection E as -> _.
    simpl in Hd1. done.
  - destruct d2 as [|a d2]; [done|]. rewrite app_String in E. injection E as <- _.
    simpl in Hd2. done.
  - injection E as E.
    destruct (digits_then_stop _ _ _ _ _ _ Hd1 Hd2 Hc1 Hc2 E) as [-> ?]. done.
Qed.

Lemma label_inj y1 m1 y2 m2 : label y1 m1 = label y2 m2 → y1 = y2 ∧ m1 = m2.
Proof.
  unfold label. intros E.
  apply (numeral_then_stop y1 y2 "-" "-") in E as [-> E]; [|done..].
  injection E as E.
  apply (numeral_then_stop m1 m2 "." "." "csv" "csv") in E as [-> _]; done.
Qed.

Lemma pretty_nat_Z (i : nat) : pretty i = pretty (Z.of_nat i).
Proof.
  unfold pretty at 1, pretty_nat. destruct i as [|i]; [done|].
  rewrite <- nat_N_Z. by destruct (N.of_nat (S i)).
Qed.

Lemma label_not_scraped y m i : label y m ≠ scraped_name i.
Proof.
  unfold label, scraped_name. rewrite pretty_nat_Z. intros E.
  by apply (numeral_then_stop y (Z.of_nat i) "-" "." _ "csv") in E as [_ ?].
Qed.

(** ** Text encodings *)

Lemma decode_utf8_char c rest :
  decode_utf8 (utf8_char c +:+ rest) = String c <$> decode_utf8 rest.
Proof. by destruct c as [[] [] [] [] [] [] [] []]. Qed.

Lemma decode_encode_utf8 s : decode_utf8 (encode_utf8 s) = Some s.
Proof.
  induction s as [|c s IH]; [done|].
  cbn [encode_utf8]. by rewrite decode_utf8_char, IH.
Qed.

Lemma decode_encode_cell x : decode_cell Utf8 (encode_cell x) = Some x.
Proof. destruct x; simpl; try done. by rewrite decode_encode_utf8. Qed.

Lemma decode_encode_df df : decode_df Utf8 (encode_df df) = Some df.
Proof.
  destruct df as [cols rs]. unfold decode_df, encode_df. simpl.
  rewrite (mapM_fmap_Some _ _ cols) by apply decode_encode_utf8. simpl.
  rewrite (mapM_fmap_Some _ _ rs); [done|].
  intros row. apply mapM_fmap_Some, decode_encode_cell.
Qed.

Lemma mapM_Some_id {A} (l : list A) : mapM Some l = Some l.
Proof. rewrite <- (list_fmap_id l) at 1. by apply mapM_fmap_Some. Qed.

Lemma decode_df_latin1 raw : decode_df Latin1 raw = Some raw.
Proof.
  destruct raw as [cols rs]. unfold decode_df. cbn [columns rows].
  rewrite (mapM_ext (decode Latin1) Some), mapM_Some_id by done.
  rewrite (mapM_ext (mapM (decode_cell Latin1)) Some), mapM_Some_id; [done|].
  intros row. rewrite (mapM_ext (decode_cell Latin1) Some), mapM_Some_id; [done|].
  by intros [].
Qed.

Lemma length_app_string s t :
  String.length (s +:+ t) = (String.length s + String.length t)%nat.
Proof. induction s as [|c s IH]; [done|]. rewrite app_String. simpl. by rewrite IH. Qed.

Lemma length_encode_utf8 s : (String.length s ≤ String.length (encode_utf8 s))%nat.
Proof.
  induction s as [|c s IH]; [done|]. cbn [encode_utf8].
  rewrite length_app_string. unfold utf8_char. case_match; simpl; lia.
Qed.

(** Encoding leaves exactly the ASCII texts as they are. *)
Lemma encode_utf8_ascii s : string_forallb is_ascii s = true ↔ encode_utf8 s = s.
Proof.
  induction s as [|c s IH]; [done|]. cbn [encode_utf8 string_forallb].
  unfold utf8_char, is_ascii at 1. destruct (N_of_ascii c <? 128)%N eqn:E.
  - rewrite app_String, app_empty_l. simpl. rewrite IH. split; [by intros ->|].
    by intros [= ->].
  - rewrite !app_String, app_empty_l. split; [done|]. intros [= _ Hs]. exfalso.
    pose proof (length_encode_utf8 s) as Hlen.
    apply (f_equal String.length) in Hs. simpl in Hs. lia.
Qed.

(** ** The calendar walk *)

Lemma decrement_month_before st : decrement st = month_before st.
Proof.
  destruct st as [y m]. unfold decrement, month_before. simpl.
  repeat case_decide; try done; lia.
Qed.

Lemma months_back_0 y m : 1 ≤ m ≤ 12 → months_back (y, m) 0 = (y, m).
Proof.
  intros Hm. unfold months_back. simpl.
  f_equal; Z.to_euclidean_division_equations; lia.
Qed.

Lemma months_back_S ym n : months_back ym (S n) = month_before (months_back ym n).
Proof.
  unfold months_back, month_before. simpl fst. simpl snd.
  set (t := 12 * ym.1 + (ym.2 - 1) - Z.of_nat n).
  replace (12 * ym.1 + (ym.2 - 1) - Z.of_nat (S n)) with (t - 1) by lia.
  case_decide; f_equal; Z.to_euclidean_division_equations; lia.
Qed.

Lemma iter_month_before y m n :
  1 ≤ m ≤ 12 → Nat.iter n month_before (y, m) = months_back (y, m) n.
Proof.
  intros Hm. induction n as [|n IH].
  - by rewrite months_back_0.
  - by rewrite Nat.iter_succ, IH, months_back_S.
Qed.

Lemma months_back_rank ym n :
  12 * (months_back ym n).1 + (months_back ym n).2 = 12 * ym.1 + ym.2 - Z.of_nat n.
Proof. unfold months_back. simpl. Z.to_euclidean_division_equations; lia. Qed.

Lemma months_back_range ym n : 1 ≤ (months_back ym n).2 ≤ 12.
Proof. unfold months_back. simpl. Z.to_euclidean_division_equations; lia. Qed.

Lemma months_back_inj ym n1 n2 : months_back ym n1 = months_back ym n2 → n1 = n2.
Proof.
  intros E. pose proof (months_back_rank ym n1) as R1.
  pose proof (months_back_rank ym n2) as R2. rewrite E in R1. lia.
Qed.

(** ** The rename loop *)

Lemma rename_calls_fst st file_list : (rename_calls st file_list).*1 = file_list.
Proof.
  revert st. induction file_list as [|f l IH]; intros st; [done|].
  simpl. by rewrite IH.
Qed.

Lemma rename_calls_snd st file_list :
  (rename_calls st file_list).*2
  = (λ n, label_of (Nat.iter n decrement st)) <$> seq 0 (length file_list).
Proof.
  revert st. induction file_list as [|f l IH]; intros st; [done|].
  simpl. f_equal. rewrite IH, <- fmap_S_seq, <- list_fmap_compose.
  apply list_fmap_ext. intros _ n _. cbn [compose]. by rewrite Nat.iter_succ_r.
Qed.

Lemma rename_calls_lookup st file_list n filename :
  file_list !! n = Some filename →
  rename_calls st file_list !! n
  = Some (filename, label_of (Nat.iter n decrement st)).
Proof.
  revert st n. induction file_list as [|f l IH]; intros st [|n] Hn; simplify_eq/=.
  - done.
  - rewrite (IH _ _ Hn). by rewrite <- Nat.iter_succ_r.
Qed.

Lemma iter_decrement n st : Nat.iter n decrement st = Nat.iter n month_before st.
Proof.
  induction n as [|n IH]; [done|]. simpl. by rewrite IH, decrement_month_before.
Qed.

Lemma for_fold_rename os file_list : ∀ st w,
  for_fold file_list st (rename_step os) w
  = (run_calls os (rename_calls st file_list) ;;
     ret (Nat.iter (length file_list) decrement st)) w.
Proof.
  induction file_list as [|f l IH]; intros st w; [done|].
  specialize (IH (decrement st)).
  cbn [for_fold rename_calls length]. unfold run_calls in *.
  cbn [for_ fst snd]. unfold rename_step at 1. unfold bind, ret in *.
  destruct (os_rename os f (label st.1 st.2) w) as [[[]|e] w1]; [|done].
  by rewrite IH, Nat.iter_succ_r.
Qed.

Lemma rename_cell_calls os y m listing w :
  rename_cell os y m listing w
  = (print (cwd w) ;;
     run_calls os (rename_calls (y, m) (natsorted listing)) ;;
     ret (Nat.iter (length listing) decrement (y, m))) w.
Proof.
  unfold rename_cell. unfold bind at 1. cbv beta iota.
  apply bind_ext. intros _ w1.
  rewrite for_fold_rename. by rewrite natsorted_length.
Qed.

Lemma listing_size w listing :
  is_listing w listing → size (csv_files w) = length listing.
Proof.
  intros [Hnd Hin]. rewrite <- length_map_to_list.
  rewrite <- (length_fmap fst (map_to_list (csv_files w))).
  apply Permutation_length, NoDup_Permutation; [apply NoDup_fst_map_to_list|done|].
  intros fn. rewrite Hin, list_elem_of_fmap. split.
  - intros ([fn' df] & -> & H%elem_of_map_to_list). by exists df.
  - intros [df H]. exists (fn, df). split; [done|]. by apply elem_of_map_to_list.
Qed.

(** Renames whose sources all exist and whose destinations are all new and
    distinct succeed on both platforms, move every table to its destination,
    and touch nothing else. *)
Lemma run_calls_fresh os calls : ∀ w,
  NoDup calls.*1 → NoDup calls.*2 →
  (∀ src, src ∈ calls.*1 → is_Some (csv_files w !! src)) →
  (∀ dst, dst ∈ calls.*2 → csv_files w !! dst = None) →
  ∃ d, run_calls os calls w = (Ok tt, set_csv_files d w)
       ∧ size d = size (csv_files w)
       ∧ (∀ k, k ∉ calls.*1 → k ∉ calls.*2 → d !! k = csv_files w !! k)
       ∧ (∀ src dst, (src, dst) ∈ calls → d !! dst = csv_files w !! src)
       ∧ (∀ src, src ∈ calls.*1 → d !! src = None).
Proof.
  induction calls as [|[s t] calls IH]; intros w Hs Ht Hsrc Hdst.
  - exists (csv_files w). split_and!; try done; [by destruct w|..]; intros; set_solver.
  - simpl in *. apply NoDup_cons in Hs as [Hs1 Hs]. apply NoDup_cons in Ht as [Ht1 Ht].
    destruct (Hsrc s) as [df Hdf]; [left|].
    assert (csv_files w !! t = None) as Htn by (apply Hdst; left).
    assert (s ≠ t) as Hst by congruence.
    assert (t ∉ calls.*1) as Hts.
    { intros Hin. destruct (Hsrc t) as [? ?]; [by right|congruence]. }
    assert (s ∉ calls.*2) as Hst2.
    { intros Hin. specialize (Hdst s (list_elem_of_further _ _ _ Hin)). congruence. }
    set (w1 := set_csv_files (<[t := df]> (delete s (csv_files w))) w).
    assert (os_rename os s t w = (Ok tt, w1)) as Hstep.
    { unfold os_rename. rewrite Hdf, Htn. by destruct os. }
    destruct (IH w1) as (d & Hrun & Hsize & Hframe & Hmove & Hgone); [done..| | |].
    { intros src Hin. simpl. rewrite lookup_insert_ne by (by intros ->).
      rewrite lookup_delete_ne by (by intros ->). apply Hsrc. by right. }
    { intros dst Hin. simpl. rewrite lookup_insert_ne by (by intros ->).
      rewrite lookup_delete_ne by (by intros ->). apply Hdst. by right. }
    exists d. split_and!.
    + unfold run_calls in *. cbn [for_ fst snd]. erewrite bind_ok by exact Hstep.
      by rewrite Hrun.
    + rewrite Hsize. simpl. rewrite map_size_insert_None.
      * rewrite map_size_delete_Some by eauto.
        assert (size (csv_files w) ≠ 0%nat); [|lia].
        intros H0%map_size_empty_inv. rewrite H0 in Hdf. by rewrite lookup_empty in Hdf.
      * rewrite lookup_delete_ne; done.
    + intros k [Hk1 Hk2]%not_elem_of_cons [Hk3 Hk4]%not_elem_of_cons.
      rewrite Hframe by done. simpl.
      rewrite lookup_insert_ne, lookup_delete_ne; done.
    + intros src dst [E|Hin]%elem_of_cons.
      * simplify_eq. rewrite Hframe by done. simpl. by rewrite lookup_insert_eq.
      * rewrite (Hmove _ _ Hin). simpl.
        assert (src ∈ calls.*1) by (apply list_elem_of_fmap; by exists (src, dst)).
        rewrite lookup_insert_ne, lookup_delete_ne; [done|by intros ->..].
    + intros src [->|Hin]%elem_of_cons; [|by apply Hgone].
      rewrite Hframe by done. simpl.
      rewrite lookup_insert_ne, lookup_delete_eq; done.
Qed.

Lemma rename_labels_NoDup y m file_list :
  1 ≤ m ≤ 12 → NoDup (rename_calls (y, m) file_list).*2.
Proof.
  intros Hm. rewrite rename_calls_snd.
  apply NoDup_fmap_2_strong; [|apply NoDup_seq].
  intros n1 n2 _ _. rewrite !iter_decrement, !iter_month_before by done.
  unfold label_of. intros [E1 E2]%label_inj.
  apply (months_back_inj (y, m)). by apply injective_projections.
Qed.

Lemma rename_labels_not_scraped st file_list dst i :
  dst ∈ (rename_calls st file_list).*2 → dst ≠ scraped_name i.
Proof.
  rewrite rename_calls_snd. intros (n & -> & _)%list_elem_of_fmap.
  apply label_not_scraped.
Qed.

(** What the rename cell leaves when none of the labels it will use is the
    name of a file of the directory: it runs to the end on both platforms,
    the table of the file at position n of the sorted listing is found under
    the label of the month n steps back, the old names are gone and the
    directory holds as many files as before. *)
Lemma rename_cell_outcome os y m w listing :
  1 ≤ m ≤ 12 →
  is_listing w listing →
  (∀ n, (n < length listing)%nat →
        csv_files w !! label_of (months_back (y, m) n) = None) →
  ∃ st w',
    rename_cell os y m listing w = (Ok st, w')
    ∧ size (csv_files w') = size (csv_files w)
    ∧ cwd_files w' = cwd_files w
    ∧ (∀ n filename, natsorted listing !! n = Some filename →
         csv_files w' !! label_of (months_back (y, m) n) = csv_files w !! filename
         ∧ csv_files w' !! filename = None).
Proof.
  intros Hm [Hlnd Hlin] Hfresh.
  set (calls := rename_calls (y, m) (natsorted listing)).
  set (w1 := set_stdout (stdout w ++ [cwd w]) w).
  destruct (run_calls_fresh os calls w1) as (d & Hrun & Hsize & _ & Hmove & Hgone).
  - unfold calls. rewrite rename_calls_fst. by rewrite natsorted_perm.
  - by apply rename_labels_NoDup.
  - intros src. unfold calls. rewrite rename_calls_fst, natsorted_perm. apply Hlin.
  - intros dst. unfold calls. rewrite rename_calls_snd, natsorted_length.
    intros (n & -> & Hn%elem_of_seq)%list_elem_of_fmap.
    rewrite iter_decrement, iter_month_before by done. simpl. apply Hfresh. lia.
  - exists (Nat.iter (length listing) decrement (y, m)), (set_csv_files d w1).
    split_and!.
    + rewrite rename_cell_calls. fold calls.
      erewrite bind_ok by reflexivity. fold w1.
      erewrite bind_ok by exact Hrun. done.
    + simpl. by rewrite Hsize.
    + done.
    + intros n filename Hn.
      pose proof (rename_calls_lookup (y, m) _ _ _ Hn) as Hcall.
      rewrite iter_decrement, iter_month_before in Hcall by done.
      apply list_elem_of_lookup_2 in Hcall. split.
      * simpl. by rewrite (Hmove _ _ Hcall).
      * simpl. apply Hgone. unfold calls. rewrite rename_calls_fst.
        by eapply list_elem_of_lookup_2.
Qed.

(** C1: with an anchor month between 1 and 12, on a directory in which none
    of the labels to be given is a file name yet (as when it holds the
    scraper's numbered files), the rename cell runs to the end, and the file
    at position n (counting from 0) of the naturally sorted listing is then
    found under the label of the month reached by stepping back n times from
    the anchor, month 1 being followed by month 12 of the year before, and no
    longer under its old name; that month is the calendar month n months
    before the anchor.  With anchor 2023-2, three files end up as
    2023-2.csv, 2023-1.csv and 2022-12.csv, in that order. *)
Theorem chronology_labels (os : platform) (y m : Z) (w : world) (listing : list string) :
  1 ≤ m ≤ 12 →
  is_listing w listing →
  (∀ n, (n < length listing)%nat →
        csv_files w !! label_of (Nat.iter n month_before (y, m)) = None) →
  ∃ st w',
    rename_cell os y m listing w = (Ok st, w')
    ∧ (∀ n filename, natsorted listing !! n = Some filename →
         csv_files w' !! label_of (Nat.iter n month_before (y, m))
         = csv_files w !! filename
         ∧ csv_files w' !! filename = None
         ∧ Nat.iter n month_before (y, m) = months_back (y, m) n)
    ∧ (∀ f0 f1 f2, y = 2023 → m = 2 → natsorted listing = [f0; f1; f2] →
         csv_files w' !! "2023-2.csv" = csv_files w !! f0
         ∧ csv_files w' !! "2023-1.csv" = csv_files w !! f1
         ∧ csv_files w' !! "2022-12.csv" = csv_files w !! f2).
Proof.
  intros Hm Hls Hfresh.
  destruct (rename_cell_outcome os y m w listing Hm Hls)
    as (st & w' & Hrun & _ & _ & Hout).
  { intros n Hn. rewrite <- iter_month_before by done. by apply Hfresh. }
  exists st, w'. split; [done|]. split.
  - intros n filename Hn. destruct (Hout n filename Hn) as [H1 H2].
    rewrite iter_month_before by done. done.
  - intros f0 f1 f2 -> -> Hs. rewrite Hs in Hout.
    split_and!; [apply (Hout 0%nat f0)|apply (Hout 1%nat f1)|apply (Hout 2%nat f2)]; done.
Qed.

Lemma chronology_labels_witness :
  let df := mkDataFrame ["Name"; "Amount"] [[CStr "a"; CInt 5]] in
  let dg := mkDataFrame ["Name"; "Amount"] [[CStr "b"; CInt 6]] in
  let dh := mkDataFrame ["Name"; "Amount"] [[CStr "c"; CInt 7]] in
  let w := mkWorld {[ "1.csv" := df; "2.csv" := dg; "10.csv" := dh ]} ∅ "/" [] in
  ∃ st w', rename_cell Posix 2023 2 ["2.csv"; "10.csv"; "1.csv"] w = (Ok st, w')
    ∧ csv_files w' !! "2023-2.csv" = Some df
    ∧ csv_files w' !! "2023-1.csv" = Some dg
    ∧ csv_files w' !! "2022-12.csv" = Some dh.
Proof.
  intros df dg dh w.
  assert (1 ≤ 2 ≤ 12) as Hm by lia.
  assert (is_listing w ["2.csv"; "10.csv"; "1.csv"]) as Hls.
  { split; [by_compute|].
    intros fn. unfold w. simpl. rewrite !elem_of_cons, elem_of_nil.
    split.
    - intros [->|[->|[->|[]]]]; eexists; by vm_compute.
    - intros [x Hx]. destruct (decide (fn = "1.csv")) as [->|?]; [auto|].
      destruct (decide (fn = "2.csv")) as [->|?]; [auto|].
      destruct (decide (fn = "10.csv")) as [->|?]; [auto|].
      rewrite !lookup_insert_ne, lookup_singleton_ne in Hx by done. done. }
  assert (∀ n, (n < length ["2.csv"; "10.csv"; "1.csv"])%nat →
            csv_files w !! label_of (Nat.iter n month_before (2023, 2)) = None) as Hfresh.
  { intros [|[|[|n]]] Hn; [by vm_compute..|simpl in Hn; lia]. }
  destruct (chronology_labels Posix 2023 2 w _ Hm Hls Hfresh)
    as (st & w' & Hrun & _ & Hex).
  exists st, w'. split; [exact Hrun|].
  destruct (Hex "1.csv" "2.csv" "10.csv" eq_refl eq_refl) as (H0 & H1 & H2);
    [by vm_compute|].
  rewrite H0, H1, H2. split_and!; by vm_compute.
Defined.

(** C10: when the directory holds only files named by the scraper, the labels
    the loop generates are pairwise distinct and none of them is a scraper
    name, so the cell runs to the end on both platforms (on Windows a rename
    onto an existing file would raise), the directory holds as many files
    afterwards as before, every table is found under its label, and no
    original name is left. *)
Theorem rename_labels_fresh (os : platform) (y m : Z) (w : world)
    (listing : list string) :
  1 ≤ m ≤ 12 →
  is_listing w listing →
  (∀ fn, fn ∈ listing → ∃ i : nat, fn = scraped_name i) →
  let calls := rename_calls (y, m) (natsorted listing) in
  NoDup calls.*2
  ∧ (∀ dst i, dst ∈ calls.*2 → dst ≠ scraped_name i)
  ∧ ∃ st w', rename_cell os y m listing w = (Ok st, w')
      ∧ size (csv_files w') = length listing
      ∧ size (csv_files w) = length listing
      ∧ (∀ src dst, (src, dst) ∈ calls → csv_files w' !! dst = csv_files w !! src)
      ∧ (∀ src, src ∈ listing → csv_files w' !! src = None).
Proof.
  intros Hm Hls Hnum calls.
  assert (NoDup calls.*2) as Hnd by (by apply rename_labels_NoDup).
  split; [done|]. split; [intros dst i; apply rename_labels_not_scraped|].
  destruct Hls as [Hlnd Hlin].
  set (w1 := set_stdout (stdout w ++ [cwd w]) w).
  destruct (run_calls_fresh os calls w1) as (d & Hrun & Hsize & _ & Hmove & Hgone).
  - unfold calls. rewrite rename_calls_fst. by rewrite natsorted_perm.
  - done.
  - intros src. unfold calls. rewrite rename_calls_fst, natsorted_perm. apply Hlin.
  - intros dst Hdst. simpl. destruct (csv_files w !! dst) as [df|] eqn:E; [|done].
    destruct (Hnum dst) as [i ->]; [apply Hlin; eauto|].
    by apply (rename_labels_not_scraped _ _ _ i) in Hdst.
  - exists (Nat.iter (length listing) decrement (y, m)), (set_csv_files d w1).
    split_and!.
    + rewrite rename_cell_calls. fold calls.
      erewrite bind_ok by reflexivity. fold w1.
      erewrite bind_ok by exact Hrun. done.
    + simpl. rewrite Hsize. simpl. by apply listing_size.
    + by apply listing_size.
    + apply Hmove.
    + intros src Hsrc. simpl. apply Hgone. unfold calls.
      by rewrite rename_calls_fst, natsorted_perm.
Qed.

Lemma rename_labels_fresh_witness :
  let df := mkDataFrame ["Name"; "Amount"] [[CStr "a"; CInt 5]] in
  let w := mkWorld {[ "0.csv" := df; "1.csv" := df ]} ∅ "/" [] in
  NoDup (rename_calls (2023, 1) (natsorted ["1.csv"; "0.csv"])).*2
  ∧ ∃ st w', rename_cell Windows 2023 1 ["1.csv"; "0.csv"] w = (Ok st, w')
      ∧ size (csv_files w') = 2%nat.
Proof.
  intros df w.
  assert (1 ≤ 1 ≤ 12) as Hm by lia.
  assert (is_listing w ["1.csv"; "0.csv"]) as Hls.
  { split; [by apply (bool_decide_unpack (NoDup ["1.csv"; "0.csv"])); vm_compute|].
    intros fn. unfold w. simpl. rewrite !elem_of_cons, elem_of_nil.
    split.
    - intros [->|[->|[]]]; eexists; by vm_compute.
    - intros [x Hx]. destruct (decide (fn = "0.csv")) as [->|?]; [auto|].
      destruct (decide (fn = "1.csv")) as [->|?]; [auto|].
      rewrite lookup_insert_ne, lookup_singleton_ne in Hx by done. done. }
  assert (∀ fn, fn ∈ ["1.csv"; "0.csv"] → ∃ i : nat, fn = scraped_name i) as Hnum.
  { intros fn. rewrite !elem_of_cons, elem_of_nil.
    intros [->|[->|[]]]; [by exists 1%nat|by exists 0%nat]. }
  destruct (rename_labels_fresh Windows 2023 1 w _ Hm Hls Hnum)
    as (H1 & _ & st & w' & H2 & H3 & _).
  split; [exact H1|]. by exists st, w'.
Defined.

(** ** Schema normaliser *)

Lemma pay_date_not_renamed : "Pay Date" ∉ rename_columns.*1.
Proof. by_compute. Qed.

Lemma pay_date_not_dropped : "Pay Date" ∉ del_columns.
Proof. by_compute. Qed.

Lemma rename_keys_not_values key :
  key ∈ rename_columns.*1 → key ∉ rename_columns.*2.
Proof.
  unfold rename_columns. simpl. rewrite !elem_of_cons, elem_of_nil.
  intros [->|[->|[->|[->|[]]]]]; by_compute.
Qed.

Lemma filter_ext_in {A} (P Q : A → Prop) `{∀ x, Decision (P x)} `{∀ x, Decision (Q x)}
    (l : list A) :
  (∀ x, x ∈ l → P x ↔ Q x) → filter P l = filter Q l.
Proof.
  induction l as [|x l IH]; intros E; [done|].
  rewrite !filter_cons. rewrite IH by (intros; apply E; by right).
  destruct (decide (P x)) as [HP|HP], (decide (Q x)) as [HQ|HQ]; try done;
    exfalso; apply (E x) in HP || apply (E x) in HQ; try done; by left.
Qed.

Lemma filter_all {A} (P : A → Prop) `{∀ x, Decision (P x)} (l : list A) :
  (∀ x, x ∈ l → P x) → filter P l = l.
Proof.
  induction l as [|x l IH]; intros E; [done|].
  rewrite filter_cons_True by (apply E; by left).
  f_equal. apply IH. intros; apply E; by right.
Qed.

Lemma rename_guarded_absent df kv k :
  k ≠ kv.2 → k = kv.1 ∨ k ∉ columns df → k ∉ columns (rename_guarded df kv).
Proof.
  intros Hv Hk. unfold rename_guarded. case_decide as Hin.
  - unfold df_rename. simpl. intros (c & E & Hc)%list_elem_of_fmap.
    case_decide; simplify_eq. destruct Hk; done.
  - destruct Hk as [->|]; done.
Qed.

Lemma rename_fold_absent table : ∀ df k,
  k ∉ table.*2 → k ∈ table.*1 ∨ k ∉ columns df →
  k ∉ columns (foldl rename_guarded df table).
Proof.
  induction table as [|kv table IH]; intros df k Hv Hk; simpl.
  - destruct Hk as [[]%elem_of_nil|]; done.
  - simpl in Hv. apply not_elem_of_cons in Hv as [Hv1 Hv2].
    apply IH; [done|].
    destruct (decide (k ∈ table.*1)); [by left|right].
    apply rename_guarded_absent; [done|].
    simpl in Hk. rewrite elem_of_cons in Hk. tauto.
Qed.

Lemma rename_fold_id table : ∀ df,
  (∀ key, key ∈ table.*1 → key ∉ columns df) → foldl rename_guarded df table = df.
Proof.
  induction table as [|kv table IH]; intros df H; simpl; [done|].
  unfold rename_guarded at 2. rewrite decide_False by (apply H; left).
  apply IH. intros key Hk. apply H. by right.
Qed.

Lemma drop_pass_columns names : ∀ df,
  ∃ df', drop_pass names df = Ok df'
         ∧ columns df' = filter (λ c, c ∉ names) (columns df).
Proof.
  induction names as [|name names IH]; intros df; simpl.
  - exists df. split; [done|]. symmetry. apply filter_all.
    intros c _. apply not_elem_of_nil.
  - case_decide as Hin.
    + unfold df_drop. rewrite decide_True by done.
      destruct (IH (mkDataFrame (filter (λ c, c ≠ name) (columns df))
                     (drop_cells (columns df) name <$> rows df))) as (df' & -> & Hc).
      exists df'. split; [done|]. rewrite Hc. simpl. rewrite list_filter_filter.
      apply list_filter_iff. intros c. rewrite not_elem_of_cons. tauto.
    + destruct (IH df) as (df' & -> & Hc). exists df'. split; [done|].
      rewrite Hc. apply filter_ext_in. intros c Hc'. rewrite not_elem_of_cons.
      split; [|tauto]. intros ?. split; [|done]. by intros ->.
Qed.

Lemma drop_pass_id names : ∀ df,
  (∀ name, name ∈ names → name ∉ columns df) → drop_pass names df = Ok df.
Proof.
  induction names as [|name names IH]; intros df H; simpl; [done|].
  rewrite decide_False by (apply H; left). apply IH. intros; apply H; by right.
Qed.

Lemma pay_date_pass_columns filename df df' :
  pay_date_pass filename df = Ok df' →
  columns df' = (if decide ("Pay Date" ∈ columns df) then columns df
                 else insert_at 2 "Pay Date" (columns df)).
Proof.
  unfold pay_date_pass, df_insert. repeat case_decide; try done; by intros [= <-].
Qed.

Lemma elem_of_insert_at {A} (x y : A) loc l :
  x ∈ insert_at loc y l ↔ x = y ∨ x ∈ l.
Proof.
  unfold insert_at. rewrite elem_of_app, elem_of_cons.
  rewrite <- (take_drop loc l) at 3. rewrite elem_of_app. tauto.
Qed.

Lemma rename_fold_length table : ∀ df,
  length (columns (foldl rename_guarded df table)) = length (columns df).
Proof.
  induction table as [|kv table IH]; intros df; [done|]. simpl. rewrite IH.
  unfold rename_guarded, df_rename. case_decide; simpl; by rewrite ?length_fmap.
Qed.

Lemma rename_fold_keeps table : ∀ df k,
  k ∉ table.*1 → k ∈ columns df → k ∈ columns (foldl rename_guarded df table).
Proof.
  induction table as [|kv table IH]; intros df k Hk Hin; [done|]. simpl.
  simpl in Hk. apply not_elem_of_cons in Hk as [Hk1 Hk2]. apply IH; [done|].
  unfold rename_guarded, df_rename. case_decide; [|done]. simpl.
  apply list_elem_of_fmap. exists k. by rewrite decide_False.
Qed.

(** The normaliser cannot fail on a table with a Pay Date column or with at
    least two columns. *)
Lemma normalise_ok filename df :
  "Pay Date" ∈ columns df ∨ (2 ≤ length (columns df))%nat →
  ∃ df', normalise filename df = Ok df'.
Proof.
  intros H. unfold normalise.
  assert (∃ df1, pay_date_pass filename (rename_pass df) = Ok df1) as [df1 ->].
  { unfold pay_date_pass, df_insert. case_decide as Hpd; [eauto|].
    unfold rename_pass in *. rewrite rename_fold_length. destruct H as [H|H].
    - destruct Hpd. apply rename_fold_keeps; [|done]. apply pay_date_not_renamed.
    - rewrite decide_True by done. eauto. }
  destruct (drop_pass_columns del_columns df1) as (df' & -> & _). eauto.
Qed.

(** What the normaliser leaves is in normalised form. *)
Lemma normalise_normalized_form filename df df' :
  normalise filename df = Ok df' → normalized_form df'.
Proof.
  unfold normalise. destruct (pay_date_pass _ _) as [df1|] eqn:E1; [|done].
  intros E2. apply pay_date_pass_columns in E1.
  destruct (drop_pass_columns del_columns df1) as (df2 & E2' & Hc).
  rewrite E2 in E2'. injection E2' as <-.
  assert (∀ k, k ∈ columns df1 ↔ k = "Pay Date" ∨ k ∈ columns (rename_pass df)) as Hin1.
  { intros k. rewrite E1. case_decide as Hpd.
    - split; [tauto|]. by intros [->|].
    - apply elem_of_insert_at. }
  assert (∀ k, k ∈ columns df' ↔ (k ∉ del_columns) ∧ k ∈ columns df1) as Hin.
  { intros k. rewrite Hc, list_elem_of_filter. tauto. }
  split_and!.
  - apply Forall_forall. intros key Hkey. rewrite Hin, Hin1. intros [_ [->|Hk]].
    + by apply pay_date_not_renamed.
    + revert Hk. apply rename_fold_absent; [|by left].
      by apply rename_keys_not_values.
  - rewrite Hin, Hin1. split; [apply pay_date_not_dropped|by left].
  - apply Forall_forall. intros name Hname. rewrite Hin. tauto.
Qed.

(** A table in normalised form is left as it is. *)
Lemma normalise_fixed filename df :
  normalized_form df → normalise filename df = Ok df.
Proof.
  intros (Hren & Hpd & Hdel). unfold normalise, rename_pass.
  rewrite rename_fold_id by (by apply Forall_forall).
  unfold pay_date_pass. rewrite decide_True by done.
  apply drop_pass_id. by apply Forall_forall.
Qed.

Lemma encode_cell_ascii x : cell_ascii x ↔ encode_cell x = x.
Proof.
  destruct x; simpl; try done. rewrite encode_utf8_ascii.
  split; [by intros ->|by intros [= ->]].
Qed.

Lemma fmap_id_iff {A} (f : A → A) (l : list A) :
  f <$> l = l ↔ Forall (λ x, f x = x) l.
Proof.
  induction l as [|x l IH].
  - split; [constructor|done].
  - rewrite Forall_cons, <- IH, fmap_cons.
    split; [intros [= E1 E2]; by rewrite E1, !E2|by intros [-> ->]].
Qed.

(** Writing a table back leaves the stored table as it was exactly when all
    its text is ASCII. *)
Lemma encode_df_ascii df : df_ascii df ↔ encode_df df = df.
Proof.
  destruct df as [cols rs]. unfold df_ascii, encode_df. simpl. split.
  - intros [Hc Hr]. f_equal.
    + apply fmap_id_iff. eapply Forall_impl; [exact Hc|].
      intros c. apply encode_utf8_ascii.
    + apply fmap_id_iff. eapply Forall_impl; [exact Hr|].
      intros row Hrow. apply fmap_id_iff. eapply Forall_impl; [exact Hrow|].
      intros x. apply encode_cell_ascii.
  - intros [= Hc Hr]. split.
    + apply fmap_id_iff in Hc. eapply Forall_impl; [exact Hc|].
      intros c. apply encode_utf8_ascii.
    + apply fmap_id_iff in Hr. eapply Forall_impl; [exact Hr|].
      intros row Hrow. apply fmap_id_iff in Hrow. eapply Forall_impl; [exact Hrow|].
      intros x. apply encode_cell_ascii.
Qed.

Lemma read_csv_latin1 filename w raw :
  csv_files w !! filename = Some raw → read_csv Latin1 filename w = (Ok raw, w).
Proof. intros H. unfold read_csv. by rewrite H, decode_df_latin1. Qed.

(** One iteration of the normaliser on an entry it can normalise. *)
Lemma normalise_file_ok filename w df' :
  is_csv filename → normalised_file w filename = Some df' →
  normalise_file filename w
  = (Ok tt,
     set_csv_files (<[filename := encode_df df']> (csv_files w))
       (set_stdout
          (stdout w ++ (if decide (length (columns df') ≠ 6%nat) then [filename] else []))
          w)).
Proof.
  unfold is_csv, normalised_file, normalise_file. intros -> H.
  destruct (csv_files w !! filename) as [raw|] eqn:Hraw; [|done].
  destruct (normalise filename raw) as [df|] eqn:Hn; [|done]. simplify_eq.
  erewrite bind_ok by (by apply read_csv_latin1).
  erewrite bind_ok by (unfold lift; by rewrite Hn).
  case_decide.
  - erewrite bind_ok by done. done.
  - erewrite bind_ok by done. unfold to_csv. do 2 f_equal.
    destruct w. unfold set_stdout. simpl. by rewrite app_nil_r.
Qed.

Lemma normalise_file_skip filename w :
  ¬ is_csv filename → normalise_file filename w = (Ok tt, w).
Proof.
  unfold is_csv, normalise_file. by destruct (endswith filename ".csv").
Qed.

Lemma normalised_file_insert w w1 filename raw fn :
  csv_files w1 = <[filename := raw]> (csv_files w) → fn ≠ filename →
  normalised_file w1 fn = normalised_file w fn.
Proof.
  intros E Hne. unfold normalised_file. by rewrite E, lookup_insert_ne.
Qed.

Lemma flagged_insert w w1 filename raw fn :
  csv_files w1 = <[filename := raw]> (csv_files w) → fn ≠ filename →
  flagged w1 fn ↔ flagged w fn.
Proof.
  intros E Hne. unfold flagged. by rewrite (normalised_file_insert w w1 _ _ _ E Hne).
Qed.

Lemma normalise_cell_spec listing : ∀ w,
  NoDup listing →
  (∀ fn, fn ∈ listing → is_csv fn → is_Some (normalised_file w fn)) →
  ∃ w', normalise_cell listing w = (Ok tt, w')
        ∧ stdout w' = stdout w ++ filter (flagged w) listing
        ∧ cwd_files w' = cwd_files w
        ∧ (∀ fn, fn ∈ listing → is_csv fn →
             csv_files w' !! fn = encode_df <$> normalised_file w fn)
        ∧ (∀ fn, ¬ (fn ∈ listing ∧ is_csv fn) →
             csv_files w' !! fn = csv_files w !! fn).
Proof.
  induction listing as [|f l IH]; intros w Hnd Hok.
  - exists w. split_and!; try done.
    + by rewrite app_nil_r.
    + by intros ? []%elem_of_nil.
  - apply NoDup_cons in Hnd as [Hf Hnd]. unfold normalise_cell. cbn [for_].
    destruct (decide (is_csv f)) as [Hcsv|Hcsv].
    + destruct (Hok f) as [df' Hdf']; [by left|done|].
      erewrite bind_ok by (by apply normalise_file_ok).
      set (w1 := set_csv_files _ _).
      assert (csv_files w1 = <[f := encode_df df']> (csv_files w)) as E by done.
      destruct (IH w1 Hnd) as (w' & Hrun & Hout & Hcwd & Hin & Hframe).
      { intros fn Hfn ?. rewrite (normalised_file_insert w w1 f _ fn E).
        - apply Hok; [by right|done].
        - by intros ->. }
      exists w'. split_and!.
      * exact Hrun.
      * rewrite Hout. simpl. rewrite <- app_assoc. f_equal.
        rewrite filter_cons.
        rewrite (filter_ext_in (flagged w1) (flagged w) l).
        2:{ intros fn Hfn. apply (flagged_insert w w1 f (encode_df df') fn E).
            by intros ->. }
        destruct (decide (flagged w f)) as [Hfl|Hfl].
        -- destruct Hfl as (_ & df2 & ? & ?). simplify_eq. by rewrite decide_True.
        -- rewrite decide_False; [done|]. intros ?. apply Hfl. split; [done|]. eauto.
      * by rewrite Hcwd.
      * intros fn [->|Hfn]%elem_of_cons Hc.
        -- rewrite Hframe by tauto. by rewrite E, lookup_insert_eq, Hdf'.
        -- rewrite (Hin fn Hfn Hc).
           rewrite (normalised_file_insert w w1 f _ fn E); [done|by intros ->].
      * intros fn Hfn. rewrite Hframe.
        -- rewrite E, lookup_insert_ne; [done|]. intros <-. apply Hfn. split; [by left|done].
        -- intros [? ?]. apply Hfn. split; [by right|done].
    + erewrite bind_ok by (by apply normalise_file_skip).
      destruct (IH w Hnd) as (w' & Hrun & Hout & Hcwd & Hin & Hframe).
      { intros fn Hfn ?. apply Hok; [by right|done]. }
      exists w'. split_and!; try done.
      * rewrite Hout. f_equal. rewrite filter_cons, decide_False; [done|].
        by intros [? _].
      * intros fn [->|Hfn]%elem_of_cons Hc; [done|]. by apply Hin.
      * intros fn Hfn. apply Hframe. intros [? ?]. apply Hfn. split; [by right|done].
Qed.



(** The claim of C4 fails on the file of [pound_world]: the file is in
    normalised form, the pass runs, and the row content of the file is not
    what it was, neither as stored nor as the later cells read it: the cell
    "£500 grant" has become "Â£500 grant". *)
Lemma normalise_again_changes_rows :
  let listing := ["2023-2.csv"] in
  let pound := CStr (String "194" (String "163" "500 grant")) in
  let pound_again :=
    CStr (String "195" (String "130" (String "194" (String "163" "500 grant")))) in
  csv_files pound_world !! "2023-2.csv" = Some pound_file
  ∧ is_csv "2023-2.csv"
  ∧ normalized_form pound_file
  ∧ cell_at pound_file 0 1 = Some pound
  ∧ ∃ w' after,
      normalise_cell listing pound_world = (Ok tt, w')
      ∧ csv_files w' !! "2023-2.csv" = Some after
      ∧ cell_at after 0 1 = Some pound_again
      ∧ rows after ≠ rows pound_file
      ∧ ∃ d1 d2, decode_df Utf8 pound_file = Some d1 ∧ decode_df Utf8 after = Some d2
          ∧ cell_at d1 0 1 = Some (CStr (String "163" "500 grant"))
          ∧ cell_at d2 0 1 = Some (CStr (String "194" (String "163" "500 grant"))).
Proof.
  intros listing pound pound_again. split_and!.
  - by vm_compute.
  - by vm_compute.
  - by_compute.
  - by vm_compute.
  - do 2 eexists. split_and!; [by vm_compute..|].
    do 2 eexists. split_and!; by vm_compute.
Qed.

(** C4, amended: the steps of the pass between reading and writing (the
    renames, the insertion of Pay Date, the drops) are no-ops on a table in
    normalised form: the table handed to [to_csv] has the header and the
    rows of the table [read_csv] returned; and whatever table the steps
    return is in normalised form, so that applying them to it again returns
    it unchanged.  The file is not left as it was: it is read as Latin-1 and
    written as UTF-8, so when it holds a character that is not ASCII the
    table stored after the pass is not the table stored before. *)
Theorem normalise_file_again (filename : string) (raw : DataFrame) :
  normalized_form raw →
  normalise filename raw = Ok raw
  ∧ (∀ df df' filename',
       normalise filename df = Ok df' →
       normalized_form df' ∧ normalise filename' df' = Ok df')
  ∧ (∀ w, is_csv filename → csv_files w !! filename = Some raw → ¬ df_ascii raw →
       ∃ w' after,
         normalise_file filename w = (Ok tt, w')
         ∧ csv_files w' !! filename = Some after
         ∧ after ≠ raw).
Proof.
  intros Hnf.
  assert (normalise filename raw = Ok raw) as Hn by (by apply normalise_fixed).
  split_and!; [done| |].
  - intros df df' filename' H. apply normalise_normalized_form in H.
    split; [done|]. by apply normalise_fixed.
  - intros w Hcsv Hraw Hascii. do 2 eexists. split_and!.
    + apply normalise_file_ok; [done|]. unfold normalised_file. by rewrite Hraw, Hn.
    + simpl. apply lookup_insert_eq.
    + intros E. by apply Hascii, encode_df_ascii.
Qed.

Lemma normalise_file_again_witness :
  normalized_form pound_file
  ∧ normalise "2023-2.csv" pound_file = Ok pound_file
  ∧ ∃ w' after,
      normalise_file "2023-2.csv" pound_world = (Ok tt, w')
      ∧ csv_files w' !! "2023-2.csv" = Some after
      ∧ after ≠ pound_file.
Proof.
  assert (normalized_form pound_file) as H1 by by_compute.
  destruct (normalise_file_again "2023-2.csv" pound_file H1) as (Hn & _ & Hfile).
  destruct (Hfile pound_world) as (w' & after & Hrun & Hafter & Hne).
  - by vm_compute.
  - by vm_compute.
  - intros H%encode_df_ascii. by vm_compute in H.
  - split; [exact H1|]. split; [exact Hn|]. by exists w', after.
Defined.

(** ** Schema validator *)

Lemma keeps_files_bind {A B} (c : M A) (k : A → M B) :
  keeps_files c → (∀ a, keeps_files (k a)) → keeps_files (bind c k).
Proof.
  intros Hc Hk w. unfold bind. destruct (Hc w) as [H1 H2].
  destruct (c w) as [[a|e] w1]; simpl in *; [|done].
  destruct (Hk a w1) as [H3 H4]. by rewrite H3, H4.
Qed.

Lemma keeps_files_for {A} (l : list A) (body : A → M unit) :
  (∀ x, keeps_files (body x)) → keeps_files (for_ l body).
Proof.
  intros Hb. induction l as [|x l IH]; [done|].
  simpl. by apply keeps_files_bind.
Qed.

Lemma keeps_files_read_csv enc filename : keeps_files (read_csv enc filename).
Proof. intros w. unfold read_csv. by repeat case_match. Qed.

Lemma keeps_files_print line : keeps_files (print line).
Proof. done. Qed.

Lemma keeps_files_check_file column_names file :
  keeps_files (check_file column_names file).
Proof.
  apply keeps_files_bind; [apply keeps_files_read_csv|]. intros df.
  case_decide; [|done]. apply keeps_files_bind; done.
Qed.

Lemma keeps_files_validate_cell listing : keeps_files (validate_cell listing).
Proof.
  unfold validate_cell. destruct (sorted listing) as [|first rest]; [done|].
  apply keeps_files_bind; [apply keeps_files_read_csv|]. intros df.
  apply keeps_files_bind; [|done].
  apply keeps_files_for, keeps_files_check_file.
Qed.

Lemma columns_of_read w filename cols :
  columns_of w filename = Some cols →
  ∃ df, read_csv Utf8 filename w = (Ok df, w) ∧ columns df = cols.
Proof.
  unfold columns_of, read_csv. destruct (csv_files w !! filename) as [raw|]; [|done].
  simpl. destruct (decode_df Utf8 raw) as [df|]; [|done]. simpl.
  intros [= <-]. eauto.
Qed.

Lemma check_file_match w file column_names :
  columns_of w file = Some column_names →
  check_file column_names file w = (Ok tt, w).
Proof.
  intros (df & Hr & <-)%columns_of_read. unfold check_file.
  erewrite bind_ok by exact Hr. by rewrite decide_False by (by intros []).
Qed.

Lemma columns_of_ext w w' fn :
  csv_files w' = csv_files w → columns_of w' fn = columns_of w fn.
Proof. unfold columns_of. by intros ->. Qed.

Lemma check_file_run w file column_names cols :
  columns_of w file = Some cols →
  check_file column_names file w
  = (Ok tt, if decide (cols = column_names) then w
            else set_stdout (stdout w ++ [mismatch_line file]) w).
Proof.
  intros (df & Hr & <-)%columns_of_read. unfold check_file.
  erewrite bind_ok by exact Hr.
  destruct (decide (columns df = column_names)) as [Hc|Hc].
  - rewrite decide_False; [done|]. intros H. by apply H.
  - by rewrite decide_True.
Qed.

Lemma check_all_match w files column_names :
  (∀ fn, fn ∈ files → columns_of w fn = Some column_names) →
  for_ files (check_file column_names) w = (Ok tt, w).
Proof.
  induction files as [|f l IH]; intros H; [done|]. simpl.
  erewrite bind_ok by (apply check_file_match, H; by left).
  apply IH. intros; apply H; by right.
Qed.

(** The loop over the other files: [exit()] returns, so every file is
    compared and every mismatching name printed. *)
Lemma check_all_run column_names files : ∀ w,
  (∀ fn, fn ∈ files → is_Some (columns_of w fn)) →
  for_ files (check_file column_names) w
  = (Ok tt,
     set_stdout (stdout w ++ (mismatch_line <$> mismatches w column_names files)) w).
Proof.
  induction files as [|f l IH]; intros w H.
  - unfold mismatches. simpl. rewrite app_nil_r. by destruct w.
  - destruct (H f) as [cols Hcols]; [by left|]. cbn [for_].
    erewrite bind_ok by (by apply check_file_run).
    unfold mismatches. rewrite filter_cons, Hcols. case_decide as Hc.
    + subst cols. rewrite decide_False by (by intros []).
      apply IH. intros; apply H; by right.
    + rewrite decide_True by congruence.
      set (w1 := set_stdout _ w). rewrite IH.
      * unfold mismatches.
        rewrite (filter_ext_in (λ fn, columns_of w1 fn ≠ Some column_names)
                   (λ fn, columns_of w fn ≠ Some column_names)) by done.
        unfold w1, set_stdout. simpl. by rewrite <- app_assoc.
      * intros fn Hfn. apply H. by right.
Qed.

(** The validator cell on a directory whose entries can all be read. *)
Lemma validate_cell_run listing w first rest column_names :
  sorted listing = first :: rest →
  columns_of w first = Some column_names →
  (∀ fn, fn ∈ rest → is_Some (columns_of w fn)) →
  validate_cell listing w
  = (Ok tt,
     set_stdout (stdout w ++ (mismatch_line <$> mismatches w column_names rest)
                   ++ ["all columns match!"]) w).
Proof.
  intros Hs Hfirst Hrest. destruct (columns_of_read _ _ _ Hfirst) as (df & Hr & Hcols).
  unfold validate_cell. rewrite Hs. erewrite bind_ok by exact Hr. rewrite Hcols.
  erewrite bind_ok by (by apply check_all_run).
  unfold print, set_stdout. simpl. by rewrite <- app_assoc.
Qed.

(** C5: the validator does not stop at the first mismatch.  With the files
    1.csv and 3.csv of header A, B, C and the file 2.csv of header A, C, B it
    prints the name of 2.csv, goes on to 3.csv, and ends normally with the
    line that all columns match: [exit()] does not end the cell. *)
Theorem validate_cell_goes_on_after_mismatch :
  let abc := mkDataFrame ["A"; "B"; "C"] [] in
  let acb := mkDataFrame ["A"; "C"; "B"] [] in
  let w := mkWorld {[ "1.csv" := abc; "2.csv" := acb; "3.csv" := abc ]} ∅ "/" [] in
  let listing := ["3.csv"; "1.csv"; "2.csv"] in
  sorted listing = ["1.csv"; "2.csv"; "3.csv"]
  ∧ columns_of w "1.csv" = Some ["A"; "B"; "C"]
  ∧ columns_of w "2.csv" = Some ["A"; "C"; "B"]
  ∧ validate_cell listing w
    = (Ok tt,
       set_stdout ["Column names in 2.csv do not match"; "all columns match!"] w).
Proof. intros abc acb w listing. split_and!; by vm_compute. Qed.

(** ** Combiner *)

Lemma read_all_ok listing : ∀ dataframes w,
  (∀ fn, fn ∈ listing → is_csv fn → is_Some (columns_of w fn)) →
  read_all listing dataframes w = (Ok (dataframes ++ csv_frames w listing), w).
Proof.
  induction listing as [|f l IH]; intros acc w H.
  - unfold csv_frames. simpl. by rewrite app_nil_r.
  - cbn [read_all]. unfold csv_frames. rewrite filter_cons.
    destruct (decide (is_csv f)) as [Hcsv|Hcsv].
    + rewrite Hcsv. destruct (H f) as [cols Hcols]; [by left|done|].
      destruct (columns_of_read _ _ _ Hcols) as (df & Hr & _).
      erewrite bind_ok by exact Hr. rewrite IH by (intros; apply H; [by right|done]).
      simpl. unfold read_csv in Hr.
      destruct (csv_files w !! f) as [raw|]; [|done]. simpl.
      destruct (decode_df Utf8 raw) as [df'|]; [|done]. simplify_eq.
      by rewrite <- app_assoc.
    + unfold is_csv in Hcsv. destruct (endswith f ".csv"); [done|].
      apply IH. intros; apply H; [by right|done].
Qed.

Lemma csv_frames_length w listing :
  (∀ fn, fn ∈ listing → is_csv fn → is_Some (columns_of w fn)) →
  length (csv_frames w listing) = length (filter is_csv listing).
Proof.
  intros H. unfold csv_frames.
  assert (∀ fn, fn ∈ filter is_csv listing → is_Some (columns_of w fn)) as H'.
  { intros fn [? ?]%list_elem_of_filter. by apply H. }
  clear H. induction (filter is_csv listing) as [|f l IH]; [done|]. simpl.
  destruct (H' f) as [cols Hcols]; [by left|]. unfold columns_of in Hcols.
  destruct (csv_files w !! f) as [raw|]; [|done]. simpl in *.
  destruct (decode_df Utf8 raw) as [df|]; [|done]. simpl.
  f_equal. apply IH. intros; apply H'; by right.
Qed.

Lemma length_bind_rows {A} (frames : list A) (f : A → list (list cell)) :
  length (frames ≫= f) = sum_list ((λ df, length (f df)) <$> frames).
Proof.
  induction frames as [|df l IH]; [done|].
  rewrite bind_cons, length_app, IH. done.
Qed.

(** [pd.concat] neither drops nor adds a row. *)
Lemma pd_concat_len frames combined :
  pd_concat frames = Ok combined →
  df_len combined = sum_list (df_len <$> frames).
Proof.
  unfold pd_concat, df_len. destruct frames as [|df0 l]; [done|].
  remember (df0 :: l) as frames eqn:Hf. clear Hf.
  repeat case_decide; intros E; simplify_eq; cbn [rows]; rewrite length_bind_rows.
  - done.
  - f_equal. apply list_fmap_ext. intros _ df _. by rewrite length_fmap.
Qed.

Lemma pd_concat_ok frames :
  frames ≠ [] → Forall (λ df, NoDup (columns df)) frames →
  ∃ combined, pd_concat frames = Ok combined.
Proof.
  unfold pd_concat. destruct frames as [|df0 l]; [done|]. intros _ H.
  case_decide; [eauto|]. rewrite decide_True by done. eauto.
Qed.

(** Frames with one and the same header are stacked: the rows of the
    result are the rows of the frames, in order. *)
Lemma pd_concat_same_header frames header :
  frames ≠ [] → Forall (λ df, columns df = header) frames →
  pd_concat frames = Ok (mkDataFrame header (frames ≫= rows)).
Proof.
  unfold pd_concat. destruct frames as [|df0 l]; [done|]. intros _ H.
  pose proof (Forall_inv H) as H0. simpl in H0. rewrite decide_True; [by rewrite H0|].
  eapply Forall_impl; [exact H|]. simpl. intros df ->. done.
Qed.

Lemma combine_cell_run listing w combined :
  (∀ fn, fn ∈ listing → is_csv fn → is_Some (columns_of w fn)) →
  pd_concat (csv_frames w listing) = Ok combined →
  combine_cell listing w
  = (Ok tt, set_cwd_files
              (<["bristol_spending_data.csv" := encode_df combined]> (cwd_files w)) w).
Proof.
  intros H Hc. unfold combine_cell.
  erewrite bind_ok by (by apply read_all_ok). simpl.
  erewrite bind_ok by (unfold lift; by rewrite Hc). done.
Qed.

(** C3: when every [.csv] entry of the listing can be read, the combiner
    reads one frame per [.csv] entry, and whenever [pd.concat] accepts the
    frames the cell writes a table with as many rows as the frames have
    together.  [pd.concat] accepts every non-empty list of frames whose
    headers have no repeated label; when the frames share one header, the
    rows of the result are the rows of the frames, in listing order, none
    dropped, repeated or merged. *)
Theorem combine_cell_row_count (listing : list string) (w : world) :
  (∀ fn, fn ∈ listing → is_csv fn → is_Some (columns_of w fn)) →
  let frames := csv_frames w listing in
  length frames = length (filter is_csv listing)
  ∧ (∀ combined, pd_concat frames = Ok combined →
       combine_cell listing w
       = (Ok tt, set_cwd_files
                   (<["bristol_spending_data.csv" := encode_df combined]> (cwd_files w)) w)
       ∧ df_len combined = sum_list (df_len <$> frames)
       ∧ df_len (encode_df combined) = sum_list (df_len <$> frames))
  ∧ (frames ≠ [] → Forall (λ df, NoDup (columns df)) frames →
       ∃ combined, pd_concat frames = Ok combined)
  ∧ (∀ header, frames ≠ [] → Forall (λ df, columns df = header) frames →
       pd_concat frames = Ok (mkDataFrame header (frames ≫= rows))).
Proof.
  intros H frames. split_and!.
  - by apply csv_frames_length.
  - intros combined Hc. split_and!.
    + by apply combine_cell_run.
    + by apply pd_concat_len.
    + unfold df_len, encode_df. simpl. rewrite length_fmap. by apply pd_concat_len.
  - apply pd_concat_ok.
  - intros header. apply pd_concat_same_header.
Qed.

Lemma combine_cell_row_count_witness :
  let f1 := mkDataFrame ["Supplier"; "Amount"] [[CStr "a"; CInt 1]; [CStr "a"; CInt 1]] in
  let f2 := mkDataFrame ["Amount"; "Supplier"] [[CInt 2; CStr "b"]] in
  let w := mkWorld {[ "2023-1.csv" := f1; "2023-2.csv" := f2; "notes.txt" := f1 ]} ∅ "/" [] in
  let listing := ["2023-2.csv"; "notes.txt"; "2023-1.csv"] in
  ∃ combined,
    pd_concat (csv_frames w listing) = Ok combined
    ∧ combine_cell listing w
      = (Ok tt, set_cwd_files {["bristol_spending_data.csv" := encode_df combined]} w)
    ∧ df_len combined = 3%nat.
Proof.
  intros f1 f2 w listing.
  assert (∀ fn, fn ∈ listing → is_csv fn → is_Some (columns_of w fn)) as H.
  { intros fn. unfold listing. rewrite !elem_of_cons, elem_of_nil.
    intros [->|[->|[->|[]]]] _; eexists; by vm_compute. }
  destruct (combine_cell_row_count listing w H) as (_ & Hrun & _).
  eexists. split; [by vm_compute|].
  destruct (Hrun _ ltac:(by vm_compute)) as (Hr & Hlen & _).
  split; [exact Hr|]. rewrite Hlen. by vm_compute.
Defined.

(** ** The header of the combined table *)

Lemma filter_insert_at {A} (P : A → Prop) `{∀ x, Decision (P x)} loc (x : A) l :
  P x → filter P (insert_at loc x l) = filter P (take loc l) ++ x :: filter P (drop loc l).
Proof. intros Hx. unfold insert_at. by rewrite filter_app, filter_cons_True. Qed.

(** A Pay Date column made from the file name ends among the first three
    columns, so the table never has the canonical header. *)
Lemma synthesized_pay_date_not_canonical filename raw df' :
  "Pay Date" ∉ columns (rename_pass raw) →
  normalise filename raw = Ok df' →
  columns df' ≠ canonical_header.
Proof.
  intros Hpd. unfold normalise.
  destruct (pay_date_pass _ _) as [df1|] eqn:E1; [|done].
  apply pay_date_pass_columns in E1. rewrite decide_False in E1 by done.
  intros E2. destruct (drop_pass_columns del_columns df1) as (df2 & E2' & Hc).
  rewrite E2 in E2'. injection E2' as <-. rewrite Hc, E1.
  rewrite filter_insert_at by apply pay_date_not_dropped.
  set (front := filter _ (take 2 _)). set (back := filter _ (drop 2 _)).
  assert (length front ≤ 2)%nat as Hlen.
  { unfold front. etrans; [apply length_filter|]. rewrite length_take. lia. }
  intros E. apply (f_equal (λ l, l !! length front)) in E.
  rewrite list_lookup_middle in E by done.
  destruct (length front) as [|[|[|n]]]; [done..|lia].
Qed.

Lemma elem_of_csv_frames w listing df :
  df ∈ csv_frames w listing →
  ∃ fn raw, fn ∈ listing ∧ is_csv fn ∧ csv_files w !! fn = Some raw
            ∧ decode_df Utf8 raw = Some df.
Proof.
  unfold csv_frames. intros (fn & [Hcsv Hin]%list_elem_of_filter & H)%list_elem_of_omap.
  destruct (csv_files w !! fn) as [raw|] eqn:E; [|done]. simpl in H. eauto 10.
Qed.

(** C2 fails on the file of [undated_world]: the file has no date column, the
    normaliser makes one from the file name and reports nothing (the table
    has 6 columns), the combiner runs, and the header of the consolidated
    table has Pay Date in third place, which is not the canonical header. *)
Lemma combined_header_not_canonical :
  let listing := ["2023-2.csv"] in
  ∃ w1 w2 combined,
    normalise_cell listing undated_world = (Ok tt, w1)
    ∧ stdout w1 = []
    ∧ combine_cell listing w1 = (Ok tt, w2)
    ∧ (raw ← cwd_files w2 !! "bristol_spending_data.csv"; decode_df Utf8 raw)
      = Some combined
    ∧ columns combined
      = ["Supplier"; "Description 1"; "Pay Date"; "Description 2"; "Description 3";
         "Amount"]
    ∧ columns combined ≠ canonical_header.
Proof.
  intros listing. do 3 eexists. split_and!; [by vm_compute..|by vm_compute| |].
  - by vm_compute.
  - by vm_compute.
Qed.

(** C2, amended: when the normaliser leaves every [.csv] entry (there is at
    least one) with the canonical header, the normaliser and then the
    combiner run to the end and the consolidated table has exactly the
    canonical header.  That never includes a file whose Pay Date column was
    made from the file name: such a table does not end with the canonical
    header. *)
Theorem combined_header_canonical (listing listing' : list string) (w : world) :
  NoDup listing →
  listing' ≡ₚ listing →
  (∃ fn, fn ∈ listing ∧ is_csv fn) →
  (∀ fn, fn ∈ listing → is_csv fn →
     ∃ df', normalised_file w fn = Some df' ∧ columns df' = canonical_header) →
  (∃ w1 combined,
     normalise_cell listing w = (Ok tt, w1)
     ∧ combine_cell listing' w1
       = (Ok tt, set_cwd_files
                   (<["bristol_spending_data.csv" := encode_df combined]> (cwd_files w1))
                   w1)
     ∧ columns combined = canonical_header
     ∧ df_len combined = sum_list (df_len <$> csv_frames w1 listing'))
  ∧ (∀ filename raw df',
       "Pay Date" ∉ columns (rename_pass raw) →
       normalise filename raw = Ok df' →
       columns df' ≠ canonical_header).
Proof.
  intros Hnd Hperm [fn0 [Hfn0 Hcsv0]] Hcanon.
  split; [|intros ???; apply synthesized_pay_date_not_canonical].
  destruct (normalise_cell_spec listing w Hnd) as (w1 & Hrun & _ & _ & Hin & _).
  { intros fn Hfn Hcsv. destruct (Hcanon fn Hfn Hcsv) as (df' & -> & _). eauto. }
  assert (∀ fn, fn ∈ listing' → is_csv fn →
            ∃ df', csv_files w1 !! fn = Some (encode_df df')
                   ∧ columns df' = canonical_header) as Hw1.
  { intros fn Hfn Hcsv. rewrite Hperm in Hfn.
    destruct (Hcanon fn Hfn Hcsv) as (df' & Hdf' & Hcols).
    exists df'. by rewrite (Hin fn Hfn Hcsv), Hdf'. }
  assert (∀ fn, fn ∈ listing' → is_csv fn → is_Some (columns_of w1 fn)) as Hread.
  { intros fn Hfn Hcsv. destruct (Hw1 fn Hfn Hcsv) as (df' & Hdf' & _).
    unfold columns_of. rewrite Hdf'. simpl. rewrite decode_encode_df. by eexists. }
  assert (Forall (λ df, columns df = canonical_header) (csv_frames w1 listing')) as Hall.
  { apply Forall_forall. intros df (fn & raw & Hfn & Hcsv & Hraw & Hdec)%elem_of_csv_frames.
    destruct (Hw1 fn Hfn Hcsv) as (df' & Hdf' & Hcols).
    rewrite Hraw in Hdf'. injection Hdf' as ->. rewrite decode_encode_df in Hdec.
    by injection Hdec as <-. }
  assert (csv_frames w1 listing' ≠ []) as Hne.
  { intros E. apply (f_equal length) in E. rewrite csv_frames_length in E by done.
    apply length_zero_iff_nil in E.
    assert (fn0 ∈ filter is_csv listing') as Hin0.
    { apply list_elem_of_filter. by rewrite Hperm. }
    rewrite E in Hin0. by apply elem_of_nil in Hin0. }
  pose proof (pd_concat_same_header _ _ Hne Hall) as Hc.
  exists w1, (mkDataFrame canonical_header (csv_frames w1 listing' ≫= rows)).
  split_and!; [exact Hrun| |done|].
  - by apply combine_cell_run.
  - by apply pd_concat_len.
Qed.

Lemma combined_header_canonical_witness :
  let dated := mkDataFrame
    ["Body Name"; "Name"; "Description Line 1"; "Description Line 2";
     "Description Line 3"; "Pay Date"; "Transaction Number"; "Amount"]
    [[CStr "BCC"; CStr "ACME"; CStr "grant"; CStr "x"; CStr "y"; CStr "2023-02-01";
      CInt 7; CStr "500.00"]] in
  let w := mkWorld {["2023-2.csv" := dated; "2023-1.csv" := dated]} ∅ "/" [] in
  let listing := ["2023-2.csv"; "2023-1.csv"] in
  let listing' := ["2023-1.csv"; "2023-2.csv"] in
  ∃ w1 combined,
    normalise_cell listing w = (Ok tt, w1)
    ∧ combine_cell listing' w1
      = (Ok tt, set_cwd_files
                  (<["bristol_spending_data.csv" := encode_df combined]> (cwd_files w1))
                  w1)
    ∧ columns combined = canonical_header.
Proof.
  intros dated w listing listing'.
  assert (NoDup listing) as H1 by by_compute.
  assert (listing' ≡ₚ listing) as H2 by apply Permutation_swap.
  assert (∃ fn, fn ∈ listing ∧ is_csv fn) as H3.
  { exists "2023-2.csv". split; [by left|by vm_compute]. }
  assert (∀ fn, fn ∈ listing → is_csv fn →
            ∃ df', normalised_file w fn = Some df' ∧ columns df' = canonical_header) as H4.
  { intros fn. unfold listing. rewrite !elem_of_cons, elem_of_nil.
    intros [->|[->|[]]] _; eexists; split; by vm_compute. }
  destruct (proj1 (combined_header_canonical listing listing' w H1 H2 H3 H4))
    as (w1 & combined & Hn & Hc & Hcols & _).
  by exists w1, combined.
Defined.

(** ** Text sanitiser *)

Lemma str_replace_char c x :
  str_replace (String c "") "" x = string_filter (λ a, negb (bool_decide (a = c))) x.
Proof.
  unfold str_replace. induction x as [|a x IH]; [done|].
  cbn [str_replace_go string_filter String.prefix].
  destruct (ascii_dec c a) as [->|Hne].
  - rewrite bool_decide_true by done. destruct x; simpl; apply IH.
  - rewrite bool_decide_false by congruence. simpl. by rewrite IH.
Qed.

Lemma string_filter_filter p q x :
  string_filter q (string_filter p x) = string_filter (λ a, p a && q a) x.
Proof.
  induction x as [|a x IH]; [done|]. simpl.
  destruct (p a); simpl; [destruct (q a)|]; by rewrite ?IH.
Qed.

Lemma string_filter_ext p q x :
  (∀ a, p a = q a) → string_filter p x = string_filter q x.
Proof. intros E. induction x as [|a x IH]; [done|]. simpl. by rewrite E, IH. Qed.

Lemma clean_text_str s :
  clean_text (CStr s) chars_to_remove = CStr (string_filter (λ c, negb (denied c)) s).
Proof.
  unfold clean_text, chars_to_remove. simpl. f_equal.
  rewrite !str_replace_char, string_filter_filter.
  apply string_filter_ext. intros a. unfold denied, chars_to_remove.
  destruct (decide (a = "194"%char)) as [->|H1]; [done|].
  destruct (decide (a = "195"%char)) as [->|H2]; [done|].
  rewrite !(bool_decide_false (a = _)) by done.
  rewrite bool_decide_false; [done|].
  rewrite !elem_of_cons, elem_of_nil. intros [[= ?]|[[= ?]|[]]]; done.
Qed.

Lemma string_filter_clean p s : string_forallb p (string_filter p s) = true.
Proof.
  induction s as [|a s IH]; [done|]. simpl.
  destruct (p a) eqn:E; simpl; [by rewrite E|done].
Qed.

Lemma cell_at_applymap f df i j :
  cell_at (applymap f df) i j = f <$> cell_at df i j.
Proof.
  unfold cell_at, applymap. simpl. rewrite list_lookup_fmap.
  destruct (rows df !! i) as [row|]; simpl; [|done].
  by rewrite list_lookup_fmap.
Qed.

(** C8: the sanitiser reads the consolidated table and writes a table with
    the same header in which every string cell has lost exactly the
    characters of the denylist (all of their occurrences, the other
    characters staying in order) and every other cell is unchanged; "FooÂBar"
    becomes "FooBar". *)
Theorem sanitise_cell_cleans_every_cell (w : world) (raw df : DataFrame) :
  cwd_files w !! "bristol_spending_data.csv" = Some raw →
  decode_df Utf8 raw = Some df →
  let df_cleaned := applymap (λ x, clean_text x chars_to_remove) df in
  sanitise_cell w
    = (Ok tt, set_cwd_files
                (<["bristol_spending_data_final.csv" := encode_df df_cleaned]>
                   (cwd_files w)) w)
  ∧ columns df_cleaned = columns df
  ∧ (∀ i j x, cell_at df i j = Some x →
       cell_at df_cleaned i j
       = Some (match x with
               | CStr s => CStr (string_filter (λ c, negb (denied c)) s)
               | _ => x
               end))
  ∧ (∀ s, clean_text (CStr s) chars_to_remove
          = CStr (string_filter (λ c, negb (denied c)) s)
        ∧ string_forallb (λ c, negb (denied c))
            (string_filter (λ c, negb (denied c)) s) = true)
  ∧ (∀ z, clean_text (CInt z) chars_to_remove = CInt z)
  ∧ (∀ m e, clean_text (CFloat m e) chars_to_remove = CFloat m e)
  ∧ clean_text CNaN chars_to_remove = CNaN
  ∧ clean_text (CStr ("Foo" +:+ String "194" "Bar")) chars_to_remove = CStr "FooBar".
Proof.
  intros Hraw Hdf df_cleaned. repeat split; try done.
  - unfold sanitise_cell.
    erewrite bind_ok; [|unfold read_csv_cwd; by rewrite Hraw, Hdf].
    done.
  - intros i j x Hx. unfold df_cleaned. rewrite cell_at_applymap, Hx. simpl.
    f_equal. destruct x; try done. apply clean_text_str.
  - apply clean_text_str.
  - apply string_filter_clean.
Qed.

Lemma sanitise_cell_cleans_every_cell_witness :
  let df := mkDataFrame ["Supplier"; "Amount"]
              [[CStr ("Foo" +:+ String "194" "Bar"); CInt 5]; [CNaN; CStr "12-"]] in
  let w := mkWorld ∅ {["bristol_spending_data.csv" := encode_df df]} "/" [] in
  cwd_files w !! "bristol_spending_data.csv" = Some (encode_df df)
  ∧ decode_df Utf8 (encode_df df) = Some df
  ∧ cell_at (applymap (λ x, clean_text x chars_to_remove) df) 0 0 = Some (CStr "FooBar").
Proof.
  intros df w.
  assert (cwd_files w !! "bristol_spending_data.csv" = Some (encode_df df)) as Hw
    by (by vm_compute).
  assert (decode_df Utf8 (encode_df df) = Some df) as Hd by (by vm_compute).
  split; [exact Hw|]. split; [exact Hd|].
  destruct (sanitise_cell_cleans_every_cell w _ df Hw Hd) as (_ & _ & Hcell & _).
  exact (Hcell 0%nat 0%nat _ eq_refl).
Defined.

(** ** The sign pass *)

Lemma elem_of_union_columns_acc frames : ∀ acc c,
  c ∈ foldl (λ acc df, acc ++ filter (λ c, c ∉ acc) (columns df)) acc frames →
  c ∈ acc ∨ ∃ df, df ∈ frames ∧ c ∈ columns df.
Proof.
  induction frames as [|df l IH]; intros acc c H; [by left|]. simpl in H.
  apply IH in H as [H|(df' & ? & ?)].
  - apply elem_of_app in H as [?|[_ ?]%list_elem_of_filter]; [by left|].
    right. exists df. split; [by left|done].
  - right. exists df'. split; [by right|done].
Qed.

(** Every column of the combined table is a column of one of the frames. *)
Lemma pd_concat_columns frames combined c :
  pd_concat frames = Ok combined → c ∈ columns combined →
  ∃ df, df ∈ frames ∧ c ∈ columns df.
Proof.
  unfold pd_concat. destruct frames as [|df0 l] eqn:Hf; [done|]. rewrite <- Hf.
  repeat case_decide; intros E; simplify_eq; cbn [columns]; intros Hc.
  - exists df0. split; [by left|done].
  - apply elem_of_union_columns_acc in Hc as [[]%elem_of_nil|?]. done.
Qed.

(** C6: on a consolidated table without a column named [num] the cell stops
    at the attribute lookup [df.num] with an AttributeError, whatever the rest
    of the expression would do, and writes nothing; the lookup fails for
    exactly those tables.  The tables of the combiner are among them whenever
    no combined file has such a column, as with the canonical header. *)
Theorem sign_cell_attribute_error (mask_astype_float : list cell → result unit)
    (w : world) (raw df : DataFrame) :
  cwd_files w !! "bristol_spending_data.csv" = Some raw →
  decode_df Utf8 raw = Some df →
  "num" ∉ columns df →
  sign_cell mask_astype_float w = (Raise (AttributeError "num"), w)
  ∧ (∀ df', df_getattr df' "num" = Raise (AttributeError "num") ↔ "num" ∉ columns df')
  ∧ (∀ frames combined,
       pd_concat frames = Ok combined →
       Forall (λ df', "num" ∉ columns df') frames →
       "num" ∉ columns combined)
  ∧ "num" ∉ canonical_header.
Proof.
  intros Hraw Hdf Hnum. split_and!.
  - unfold sign_cell.
    erewrite bind_ok by (unfold read_csv_cwd; by rewrite Hraw, Hdf).
    erewrite bind_raise; [done|]. unfold lift, df_getattr. by rewrite decide_False.
  - intros df'. unfold df_getattr. case_decide; split; done.
  - intros frames combined Hc Hall Hin.
    destruct (pd_concat_columns _ _ _ Hc Hin) as (df' & Hdf' & Hcol).
    rewrite Forall_forall in Hall. by apply (Hall df').
  - by_compute.
Qed.

Lemma sign_cell_attribute_error_witness :
  let df := mkDataFrame canonical_header
    [[CStr "ACME"; CStr "grant"; CStr "x"; CStr "y"; CStr "2023-02-01"; CStr "500.00-"]] in
  let w := mkWorld ∅ {["bristol_spending_data.csv" := encode_df df]} "/" [] in
  cwd_files w !! "bristol_spending_data.csv" = Some (encode_df df)
  ∧ decode_df Utf8 (encode_df df) = Some df
  ∧ ("num" ∉ columns df)
  ∧ sign_cell (λ _, Ok tt) w = (Raise (AttributeError "num"), w).
Proof.
  intros df w.
  assert (cwd_files w !! "bristol_spending_data.csv" = Some (encode_df df)) as H1
    by (by vm_compute).
  assert (decode_df Utf8 (encode_df df) = Some df) as H2 by (by vm_compute).
  assert ("num" ∉ columns df) as H3 by by_compute.
  split_and!; [done..|].
  exact (proj1 (sign_cell_attribute_error (λ _, Ok tt) w _ df H1 H2 H3)).
Defined.

(** * Further properties *)

(** ** More on strings *)

Lemma app_empty_r s : s +:+ "" = s.
Proof. induction s as [|c s IH]; [done|]. by rewrite app_String, IH. Qed.

Lemma app_assoc_string s t u : (s +:+ t) +:+ u = s +:+ t +:+ u.
Proof. induction s as [|c s IH]; [done|]. by rewrite !app_String, IH. Qed.

Lemma rev_app_spec s t : String.rev_app s t = String.rev s +:+ t.
Proof.
  unfold String.rev. revert t. induction s as [|c s IH]; intros t; [done|].
  simpl. rewrite IH, (IH (String c "")). by rewrite app_assoc_string.
Qed.

Lemma rev_app_string s t : String.rev (s +:+ t) = String.rev t +:+ String.rev s.
Proof.
  induction s as [|c s IH].
  - by rewrite app_empty_l, app_empty_r.
  - rewrite app_String. unfold String.rev at 1 3. simpl.
    rewrite !rev_app_spec, IH. by rewrite app_assoc_string.
Qed.

Lemma prefix_app s t : String.prefix s (s +:+ t) = true.
Proof.
  induction s as [|c s IH]; [by destruct t|]. rewrite app_String. simpl.
  by destruct (ascii_dec c c).
Qed.

(** A name made by appending a suffix ends with it. *)
Lemma endswith_app s suffix : endswith (s +:+ suffix) suffix = true.
Proof. unfold endswith. rewrite rev_app_string. apply prefix_app. Qed.

Lemma substring_0_app s t : String.substring 0 (String.length s) (s +:+ t) = s.
Proof.
  induction s as [|c s IH]; [by destruct t|]. rewrite app_String. simpl. by rewrite IH.
Qed.

Lemma substring_all s : String.substring 0 (String.length s) s = s.
Proof. induction s as [|c s IH]; [done|]. simpl. by rewrite IH. Qed.

Lemma substring_skip_app s t :
  String.substring (String.length s) (String.length t) (s +:+ t) = t.
Proof.
  induction s as [|c s IH]; [rewrite app_empty_l; apply substring_all|].
  rewrite app_String. simpl. apply IH.
Qed.

(** The last dot of a name: what follows it has no dot. *)
Lemma rfind_dot_Some p i :
  rfind_dot p = Some i ↔
  ∃ a b, p = a +:+ String "." b ∧ String.length a = i ∧ rfind_dot b = None.
Proof.
  revert i. induction p as [|c p IH]; intros i; simpl.
  - split; [done|]. intros ([|??] & b & E & _); by rewrite ?app_String, ?app_empty_l in E.
  - destruct (rfind_dot p) as [j|] eqn:Ep.
    + split.
      * intros [= <-]. destruct (proj1 (IH j) eq_refl) as (a & b & -> & <- & Hb).
        exists (String c a), b. by rewrite app_String.
      * intros (a & b & E & <- & Hb). destruct a as [|c' a].
        -- rewrite app_empty_l in E. injection E as -> ->. congruence.
        -- rewrite app_String in E. injection E as -> ->. simpl. f_equal.
           assert (Some j = Some (String.length a)) as [= ->]; [|done].
           apply IH; by exists a, b.
    + case_decide as Hc.
      * subst c. split.
        -- intros [= <-]. exists "", p. by rewrite app_empty_l.
        -- intros (a & b & E & <- & Hb). destruct a as [|c' a]; [done|].
           rewrite app_String in E. injection E as <- ->.
           assert (None = Some (String.length a)) as HH by (apply IH; exists a, b; split_and!; done). done.
      * split; [done|]. intros (a & b & E & <- & Hb). destruct a as [|c' a].
        -- rewrite app_empty_l in E. by injection E as -> ->.
        -- rewrite app_String in E. injection E as -> ->.
           assert (None = Some (String.length a)) as HH by (apply IH; exists a, b; split_and!; done). done.
Qed.

Lemma splitext_cases p :
  splitext p = (p, "")
  ∨ ∃ a b, p = a +:+ String "." b ∧ rfind_dot b = None
           ∧ string_forallb (λ c, bool_decide (c = "."%char)) a = false
           ∧ splitext p = (a, String "." b).
Proof.
  unfold splitext. destruct (rfind_dot p) as [i|] eqn:E; [|by left].
  apply rfind_dot_Some in E as (a & b & -> & <- & Hb).
  rewrite substring_0_app.
  destruct (string_forallb _ a) eqn:Ha; [by left|]. right. exists a, b.
  split_and!; try done. f_equal.
  rewrite length_app_string. replace (_ + _ - _)%nat with (String.length (String "." b)) by lia.
  apply substring_skip_app.
Qed.

(** ** Decimal numerals, read back *)

Lemma is_nat_pretty_N_char d :
  (d < 10)%N → Ascii.is_nat (pretty_N_char d) = Some (N.to_nat d).
Proof.
  intros H.
  assert (d = 0 ∨ d = 1 ∨ d = 2 ∨ d = 3 ∨ d = 4 ∨ d = 5 ∨ d = 6 ∨ d = 7 ∨ d = 8 ∨ d = 9)%N
    as Hd by lia.
  destruct Hd as [->|[->|[->|[->|[->|[->|[->|[->|[->| ->]]]]]]]]]; done.
Qed.

Lemma int_of_digits_pretty_N_go x :
  ∃ k : N, ∀ acc s,
    int_of_digits acc (pretty_N_go x s) = int_of_digits (acc * 10 ^ k + x)%N s.
Proof.
  induction (N.lt_wf_0 x) as [x _ IH].
  destruct (decide (x = 0)%N) as [->|Hx].
  - exists 0%N. intros acc s. rewrite pretty_N_go_0. f_equal. lia.
  - destruct (IH (x `div` 10)%N) as [k Hk]; [apply N.div_lt; lia|].
    exists (k + 1)%N. intros acc s. rewrite pretty_N_go_step by lia.
    rewrite Hk. simpl. rewrite is_nat_pretty_N_char by (apply N.mod_lt; lia).
    simpl. f_equal. rewrite N2Nat.id, N.pow_add_r.
    pose proof (N.div_mod x 10). lia.
Qed.

(** Parsing the decimal numeral of a number gives the number back. *)
Lemma int_of_digits_pretty (n : N) : int_of_digits 0 (pretty n) = n.
Proof.
  unfold pretty, pretty_N. case_decide as Hn; [by subst|].
  destruct (int_of_digits_pretty_N_go n) as [k Hk]. rewrite Hk. simpl. lia.
Qed.

Lemma runs_digits_then_csv ds :
  ds ≠ "" → string_forallb is_digit ds = true →
  runs (ds +:+ ".csv") = [(true, ds); (false, ".csv")].
Proof.
  induction ds as [|c ds IH]; [done|]. intros _ H. simpl in H.
  apply andb_prop in H as [Hc Hds]. rewrite app_String. cbn [runs]. rewrite Hc.
  destruct ds as [|c' ds].
  - by rewrite app_empty_l.
  - by rewrite IH.
Qed.

Lemma natsort_key_scraped (i : nat) :
  natsort_key (scraped_name i) = [Txt ""; Num (N.of_nat i); Txt ".csv"].
Proof.
  unfold natsort_key, scraped_name.
  destruct (pretty_N_digits (N.of_nat i)) as [Hd Hne].
  change (pretty i) with (pretty (N.of_nat i)).
  rewrite runs_digits_then_csv by done.
  cbn [fmap list_fmap fst snd]. by rewrite int_of_digits_pretty.
Qed.

Lemma natsort_le_scraped (i j : nat) :
  natsort_le (scraped_name i) (scraped_name j) = (i <=? j)%nat.
Proof.
  unfold natsort_le. rewrite !natsort_key_scraped. cbn [key_compare chunk_compare].
  destruct (N.compare_spec (N.of_nat i) (N.of_nat j)) as [E|E|E]; simpl.
  - symmetry. apply Nat.leb_le. lia.
  - symmetry. apply Nat.leb_le. lia.
  - symmetry. apply Nat.leb_gt. lia.
Qed.

Lemma scraped_name_inj : Inj (=) (=) scraped_name.
Proof.
  intros i j E. unfold scraped_name in E. rewrite !pretty_nat_Z in E.
  apply (numeral_then_stop _ _ "." "." "csv" "csv") in E as [E _]; [lia|done..].
Qed.

(** ** Sorting, more *)

Lemma insert_by_fmap {A B} (f : A → B) (le : A → A → bool) (le' : B → B → bool) x l :
  (∀ a b, le' (f a) (f b) = le a b) →
  insert_by le' (f x) (f <$> l) = f <$> insert_by le x l.
Proof.
  intros H. induction l as [|y l IH]; [done|]. rewrite fmap_cons. cbn [insert_by].
  rewrite H. destruct (le x y); [done|]. by rewrite IH.
Qed.

Lemma sort_by_fmap {A B} (f : A → B) (le : A → A → bool) (le' : B → B → bool) l :
  (∀ a b, le' (f a) (f b) = le a b) →
  sort_by le' (f <$> l) = f <$> sort_by le l.
Proof.
  intros H. induction l as [|x l IH]; [done|]. rewrite fmap_cons.
  unfold sort_by in *. cbn [foldr]. rewrite IH. by apply insert_by_fmap.
Qed.

Lemma seq_sorted j n : StronglySorted (λ a b, Nat.leb a b = true) (seq j n).
Proof.
  revert j. induction n as [|n IH]; intros j; simpl; constructor; [apply IH|].
  apply Forall_forall. intros k Hk%elem_of_seq. apply Nat.leb_le. lia.
Qed.

Lemma sort_by_leb_seq ns n : ns ≡ₚ seq 0 n → sort_by Nat.leb ns = seq 0 n.
Proof.
  intros Hp. apply (StronglySorted_unique_strong (λ a b, Nat.leb a b = true)).
  - intros a b _ _ H1%Nat.leb_le H2%Nat.leb_le. lia.
  - apply sort_by_sorted.
    + intros a b H%Nat.leb_gt. apply Nat.leb_le. lia.
    + intros a b c H1%Nat.leb_le H2%Nat.leb_le. apply Nat.leb_le. lia.
  - apply seq_sorted.
  - by rewrite sort_by_perm.
Qed.

(** The natural sort puts the scraper's files in download order. *)
Lemma natsorted_scraped listing n :
  listing ≡ₚ scraped_name <$> seq 0 n → natsorted listing = scraped_name <$> seq 0 n.
Proof.
  intros Hp. apply Permutation_map_inv in Hp as (ns & -> & Hns).
  unfold natsorted. rewrite (sort_by_fmap scraped_name Nat.leb) by apply natsort_le_scraped.
  f_equal. apply sort_by_leb_seq. by symmetry.
Qed.

(** ** The download loop *)

Lemma download_loop fetches : ∀ st files,
  scrape_files st = Some files →
  ∃ files',
    foldl download_step st fetches
    = mkStaging (Some files') (counter_i st + length (bodies fetches))
                (console st ++ failure_lines fetches)
    ∧ (∀ j body, bodies fetches !! j = Some body →
         files' !! scraped_name (counter_i st + j) = Some body)
    ∧ (∀ name, (∀ j, (j < length (bodies fetches))%nat →
                     name ≠ scraped_name (counter_i st + j)) →
         files' !! name = files !! name).
Proof.
  induction fetches as [|[link r] fetches IH]; intros st files Hst.
  - exists files. split_and!.
    + destruct st. simpl in *. subst. f_equal; [lia|by rewrite app_nil_r].
    + intros j body Hj. by destruct j.
    + done.
  - cbn [foldl]. destruct r as [body|message].
    + unfold download_step at 2. cbn [snd fst]. rewrite Hst.
      edestruct (IH (mkStaging (Some (<[scraped_name (counter_i st) := body]> files))
                       (S (counter_i st)) (console st))) as (files' & Hrun & Hget & Hframe);
        [done|].
      exists files'. cbn [counter_i console] in *. split_and!.
      * rewrite Hrun. unfold bodies, failure_lines. cbn [omap list_omap snd fst].
        f_equal. simpl. lia.
      * unfold bodies. cbn [omap list_omap snd]. intros [|j] b Hj.
        -- injection Hj as <-. rewrite Hframe.
           ++ rewrite Nat.add_0_r. apply lookup_insert_eq.
           ++ intros j' _ E%scraped_name_inj. lia.
        -- replace (counter_i st + S j)%nat with (S (counter_i st) + j)%nat by lia.
           by apply Hget.
      * unfold bodies. cbn [omap list_omap snd length]. intros name Hname.
        rewrite Hframe.
        -- apply lookup_insert_ne. intros <-. apply (Hname 0%nat); [lia|].
           by rewrite Nat.add_0_r.
        -- intros j Hj. replace (S (counter_i st) + j)%nat with (counter_i st + S j)%nat by lia.
           apply Hname. unfold bodies in Hj. lia.
    + unfold download_step at 2. cbn [snd fst].
      edestruct (IH (mkStaging (scrape_files st) (counter_i st)
                       (console st ++ [download_error link message])))
        as (files' & Hrun & Hget & Hframe); [done|].
      exists files'. cbn [counter_i console] in *. split_and!; [|done..].
      rewrite Hrun. unfold bodies, failure_lines. cbn [omap list_omap snd fst].
      f_equal. by rewrite <- app_assoc.
Qed.

(** X1: the download loop numbers the files it writes from 0 upwards without
    gaps: the j-th request that returned a response is saved as [{j}.csv],
    a request that raised is reported on the console, in order, and uses up
    no number; the counter ends at the number of files written and every
    other file of the staging directory is left as it was. *)
Theorem download_cell_numbers_files (fetches : list (string * response))
    (files : gmap string string) (out : list string) :
  ∃ files',
    download_cell fetches (Some files) out
    = mkStaging (Some files') (length (bodies fetches)) (out ++ failure_lines fetches)
    ∧ (∀ j body, bodies fetches !! j = Some body →
         files' !! scraped_name j = Some body)
    ∧ (∀ name, (∀ j, (j < length (bodies fetches))%nat → name ≠ scraped_name j) →
         files' !! name = files !! name)
    ∧ (length (bodies fetches) + length (failure_lines fetches))%nat = length fetches.
Proof.
  unfold download_cell.
  destruct (download_loop fetches (mkStaging (Some files) 0 out) files eq_refl)
    as (files' & Hrun & Hget & Hframe).
  exists files'. split_and!; try done.
  clear. induction fetches as [|[link [body|message]] l IH]; [done|..];
    unfold bodies, failure_lines in *; cbn [omap list_omap snd fst length]; lia.
Qed.

(** X2: started on an empty staging directory, the download loop leaves
    exactly the files [0.csv] ... [{k-1}.csv], k being the number of requests
    that returned a response. *)
Theorem download_cell_fresh_directory (fetches : list (string * response))
    (out : list string) (name : string) :
  match scrape_files (download_cell fetches (Some ∅) out) with
  | Some files' =>
      is_Some (files' !! name)
      ↔ ∃ j, (j < length (bodies fetches))%nat ∧ name = scraped_name j
  | None => False
  end.
Proof.
  unfold download_cell.
  destruct (download_loop fetches (mkStaging (Some ∅) 0 out) ∅ eq_refl)
    as (files' & -> & Hget & Hframe).
  cbn [scrape_files counter_i] in *. split.
  - intros Hsome.
    destruct (decide (Exists (λ j, name = scraped_name j) (seq 0 (length (bodies fetches)))))
      as [Hex|Hno].
    + apply Exists_exists in Hex as (j & Hj%elem_of_seq & ->). exists j. split; [lia|done].
    + rewrite Hframe, lookup_empty in Hsome; [by destruct Hsome|].
      intros j Hj ->. apply Hno, Exists_exists. exists j. split; [|done].
      apply elem_of_seq. lia.
  - intros (j & Hj & ->). destruct (lookup_lt_is_Some_2 (bodies fetches) j Hj) as [b Hb].
    specialize (Hget j b Hb). change (0 + j)%nat with j in Hget. rewrite Hget. by eexists.
Qed.

(** X3: without the staging directory nothing is saved: the counter stays
    at 0 and every link, whether its request raised or [open] did, gets a
    line on the console. *)
Theorem download_cell_without_directory (fetches : list (string * response))
    (out : list string) :
  ∃ lines,
    download_cell fetches None out = mkStaging None 0 (out ++ lines)
    ∧ length lines = length fetches.
Proof.
  unfold download_cell. generalize out. clear out.
  induction fetches as [|[link r] l IH]; intros out.
  - exists []. by rewrite app_nil_r.
  - cbn [foldl]. unfold download_step at 2. cbn [fst snd scrape_files counter_i console].
    destruct r as [body|message].
    + destruct (IH (out ++ [download_error link
                     (no_such_file ("csv_files original scrape/" +:+ scraped_name 0))]))
        as (lines & -> & Hlen).
      eexists (_ :: lines). rewrite <- app_assoc. split; [done|]. simpl. lia.
    + destruct (IH (out ++ [download_error link message])) as (lines & -> & Hlen).
      eexists (_ :: lines). rewrite <- app_assoc. split; [done|]. simpl. lia.
Qed.

(** X4: on a directory that holds exactly the scraper's files [0.csv] ...
    [{n-1}.csv] the natural sort lists them in download order, the rename
    cell runs to the end on both platforms, and the table of download j is
    then found under the label of the month j months before the anchor, and
    no longer under its number. *)
Theorem downloads_are_labelled_in_order (os : platform) (y m : Z) (n : nat)
    (w : world) (listing : list string) :
  1 ≤ m ≤ 12 →
  is_listing w listing →
  listing ≡ₚ scraped_name <$> seq 0 n →
  natsorted listing = scraped_name <$> seq 0 n
  ∧ ∃ st w',
      rename_cell os y m listing w = (Ok st, w')
      ∧ ∀ j, (j < n)%nat →
          csv_files w' !! label_of (months_back (y, m) j)
          = csv_files w !! scraped_name j
          ∧ csv_files w' !! scraped_name j = None.
Proof.
  intros Hm Hls Hp. pose proof (natsorted_scraped listing n Hp) as Hs.
  split; [done|].
  destruct (rename_cell_outcome os y m w listing Hm Hls)
    as (st & w' & Hrun & _ & _ & Hout).
  { intros k _. destruct (csv_files w !! _) as [df|] eqn:E; [|done].
    assert (label_of (months_back (y, m) k) ∈ listing) as Hin.
    { apply Hls. by eexists. }
    rewrite Hp in Hin. apply list_elem_of_fmap in Hin as (i & Hi & _).
    by apply label_not_scraped in Hi. }
  exists st, w'. split; [done|]. intros j Hj. apply Hout.
  rewrite Hs, list_lookup_fmap, lookup_seq_lt by done. done.
Qed.

Lemma downloads_are_labelled_in_order_witness :
  let df := mkDataFrame ["Name"; "Amount"] [[CStr "a"; CInt 5]] in
  let dg := mkDataFrame ["Name"; "Amount"] [[CStr "b"; CInt 6]] in
  let dh := mkDataFrame ["Name"; "Amount"] [[CStr "c"; CInt 7]] in
  let w := mkWorld {[ "0.csv" := df; "1.csv" := dg; "2.csv" := dh ]} ∅ "/" [] in
  natsorted ["2.csv"; "0.csv"; "1.csv"] = ["0.csv"; "1.csv"; "2.csv"]
  ∧ ∃ st w', rename_cell Windows 2023 2 ["2.csv"; "0.csv"; "1.csv"] w = (Ok st, w')
      ∧ csv_files w' !! label_of (months_back (2023, 2) 2) = Some dh.
Proof.
  intros df dg dh w.
  assert (1 ≤ 2 ≤ 12) as Hm by lia.
  assert (is_listing w ["2.csv"; "0.csv"; "1.csv"]) as Hls.
  { split; [by_compute|].
    intros fn. unfold w. simpl. rewrite !elem_of_cons, elem_of_nil.
    split.
    - intros [->|[->|[->|[]]]]; eexists; by vm_compute.
    - intros [x Hx]. destruct (decide (fn = "0.csv")) as [->|?]; [auto|].
      destruct (decide (fn = "1.csv")) as [->|?]; [auto|].
      destruct (decide (fn = "2.csv")) as [->|?]; [auto|].
      rewrite !lookup_insert_ne, lookup_singleton_ne in Hx by done. done. }
  assert (["2.csv"; "0.csv"; "1.csv"] ≡ₚ scraped_name <$> seq 0 3) as Hp by by_compute.
  destruct (downloads_are_labelled_in_order Windows 2023 2 3 w _ Hm Hls Hp)
    as (Hs & st & w' & Hrun & Hout).
  split; [exact Hs|]. exists st, w'. split; [exact Hrun|].
  destruct (Hout 2%nat) as [H2 _]; [lia|]. rewrite H2. by vm_compute.
Defined.

(** ** File names and the date made from them *)

Lemma splitext_stem a b :
  rfind_dot b = None →
  string_forallb (λ c, bool_decide (c = "."%char)) a = false →
  splitext (a +:+ String "." b) = (a, String "." b).
Proof.
  intros Hb Ha. unfold splitext.
  assert (rfind_dot (a +:+ String "." b) = Some (String.length a)) as ->.
  { apply rfind_dot_Some. by exists a, b. }
  rewrite substring_0_app, Ha. f_equal.
  rewrite length_app_string.
  replace (_ + _ - _)%nat with (String.length (String "." b)) by lia.
  apply substring_skip_app.
Qed.

Lemma label_stem y m : label y m = (pretty y +:+ "-" +:+ pretty m) +:+ ".csv".
Proof. unfold label. by rewrite !app_assoc_string. Qed.

Lemma numeral_not_dots (z : Z) rest :
  string_forallb (λ c, bool_decide (c = "."%char)) (pretty z +:+ rest) = false.
Proof.
  destruct (pretty_Z_shape z) as (ds & Hd & Hne & [-> | ->]).
  - destruct ds as [|c ds]; [done|]. rewrite app_String. simpl in *.
    apply andb_prop in Hd as [Hc _]. rewrite bool_decide_false; [done|].
    by intros ->.
  - by rewrite app_String.
Qed.

Lemma splitext_label y m :
  splitext (label y m) = (pretty y +:+ "-" +:+ pretty m, ".csv").
Proof. rewrite label_stem. apply splitext_stem; [done|apply numeral_not_dots]. Qed.

(** X5: a file named by the rename cell is one the later cells look at, and
    when its table has no Pay Date column (and at least two columns) the
    normaliser puts one in as third column, every row holding the text
    [year-month] of the file name. *)
Theorem renamed_file_pay_date (y m : Z) (df : DataFrame) :
  "Pay Date" ∉ columns df →
  (2 ≤ length (columns df))%nat →
  is_csv (label y m)
  ∧ pay_date_pass (label y m) df
    = Ok (mkDataFrame (insert_at 2 "Pay Date" (columns df))
            (insert_at 2 (CStr (pretty y +:+ "-" +:+ pretty m)) <$> rows df)).
Proof.
  intros Hpd Hlen. split.
  - unfold is_csv. rewrite label_stem. apply endswith_app.
  - unfold pay_date_pass. rewrite decide_False by done.
    rewrite splitext_label. unfold df_insert.
    rewrite decide_False by done. by rewrite decide_True by done.
Qed.

Lemma renamed_file_pay_date_witness :
  pay_date_pass (label 2023 2) undated_file
  = Ok (mkDataFrame (insert_at 2 "Pay Date" (columns undated_file))
          (insert_at 2 (CStr (pretty 2023 +:+ "-" +:+ pretty 2)) <$> rows undated_file)).
Proof.
  apply (renamed_file_pay_date 2023 2 undated_file).
  - apply (bool_decide_unpack _). vm_compute. exact I.
  - simpl. lia.
Defined.

(** ** The normaliser in closed form *)

Lemma rename_guarded_columns df kv :
  columns (rename_guarded df kv)
  = (λ c, if decide (c = kv.1) then kv.2 else c) <$> columns df.
Proof.
  unfold rename_guarded. case_decide as Hin; [done|].
  symmetry. apply fmap_id_iff, Forall_forall. intros c Hc.
  rewrite decide_False; [done|]. by intros ->.
Qed.

Lemma rename_guarded_rows df kv : rows (rename_guarded df kv) = rows df.
Proof. unfold rename_guarded. by case_decide. Qed.

Lemma rename_fold_rows table : ∀ df, rows (foldl rename_guarded df table) = rows df.
Proof.
  induction table as [|kv table IH]; intros df; [done|]. simpl.
  by rewrite IH, rename_guarded_rows.
Qed.

Lemma rename_pass_rows df : rows (rename_pass df) = rows df.
Proof. apply rename_fold_rows. Qed.

Lemma rename_pass_length df : length (columns (rename_pass df)) = length (columns df).
Proof. apply rename_fold_length. Qed.

Lemma rename_pass_columns df : columns (rename_pass df) = rename_name <$> columns df.
Proof.
  unfold rename_pass, rename_columns. cbn [foldl].
  rewrite !rename_guarded_columns. cbn [fst snd]. rewrite <- !list_fmap_compose.
  apply list_fmap_ext. intros _ c _. unfold rename_name, rename_columns. simpl.
  repeat case_decide; simplify_eq; done.
Qed.

Lemma pay_date_rename_pass df :
  "Pay Date" ∈ columns (rename_pass df) ↔ "Pay Date" ∈ columns df.
Proof.
  split.
  - intros H. destruct (decide ("Pay Date" ∈ columns df)) as [|Hn]; [done|].
    exfalso. revert H. apply rename_fold_absent; [by_compute|by right].
  - apply rename_fold_keeps, pay_date_not_renamed.
Qed.

Lemma zip_filter_fst {A B} (P : A → Prop) `{∀ x, Decision (P x)}
    `{∀ p : A * B, Decision (P p.1)} (l : list A) :
  ∀ k : list B,
  zip (filter P l) (filter (λ p, P p.1) (zip l k)).*2 = filter (λ p, P p.1) (zip l k).
Proof.
  induction l as [|a l IH]; intros [|b k]; try done.
  - simpl. by destruct (filter P (a :: l)).
  - cbn [zip zip_with]. rewrite !filter_cons. cbn [fst].
    repeat case_decide; try done.
    cbn [fmap list_fmap snd zip zip_with]. f_equal. apply IH.
Qed.

Lemma keep_cells_cons cols name names row :
  keep_cells (filter (λ c, c ≠ name) cols) names (drop_cells cols name row)
  = keep_cells cols (name :: names) row.
Proof.
  unfold keep_cells, drop_cells.
  rewrite (zip_filter_fst (λ c, c ≠ name)), list_filter_filter. f_equal.
  apply list_filter_iff. intros [c x]. simpl. rewrite not_elem_of_cons. tauto.
Qed.

Lemma keep_cells_absent cols name names row :
  name ∉ cols → keep_cells cols names row = keep_cells cols (name :: names) row.
Proof.
  intros Hn. unfold keep_cells. f_equal. apply filter_ext_in.
  intros [c x] Hin. simpl. rewrite not_elem_of_cons. split; [|tauto].
  intros ?. split; [|done]. intros ->. apply Hn. by apply elem_of_zip_l in Hin.
Qed.

Lemma filter_zip_fst {A B} (P : A → Prop) `{∀ x, Decision (P x)}
    `{∀ p : A * B, Decision (P p.1)} (l : list A) :
  ∀ k : list B, length l = length k →
  (filter (λ p, P p.1) (zip l k)).*1 = filter P l.
Proof.
  induction l as [|a l IH]; intros [|b k] Hlen; try done.
  cbn [zip zip_with]. rewrite !filter_cons. cbn [fst].
  repeat case_decide; try done; cbn [fmap list_fmap fst]; rewrite IH; auto.
Qed.

Lemma length_filter_zip {A B} (P : A → Prop) `{∀ x, Decision (P x)}
    `{∀ p : A * B, Decision (P p.1)} (l : list A) (k : list B) :
  length l = length k →
  length (filter (λ p, P p.1) (zip l k)).*2 = length (filter P l).
Proof.
  intros Hlen. rewrite <- (filter_zip_fst P l k Hlen). by rewrite !length_fmap.
Qed.

Lemma keep_cells_nil cols row :
  length row = length cols → keep_cells cols [] row = row.
Proof.
  intros Hlen. unfold keep_cells.
  rewrite filter_all by (intros ? _; apply not_elem_of_nil).
  by apply snd_zip, Nat.eq_le_incl.
Qed.

Lemma drop_pass_closed names : ∀ df,
  df_wf df →
  drop_pass names df
  = Ok (mkDataFrame (filter (λ c, c ∉ names) (columns df))
                    (keep_cells (columns df) names <$> rows df)).
Proof.
  induction names as [|name names IH]; intros df Hwf.
  - simpl. destruct df as [cols rs]. simpl. f_equal. f_equal.
    + symmetry. apply filter_all. intros c _. apply not_elem_of_nil.
    + symmetry. apply fmap_id_iff. eapply Forall_impl; [exact Hwf|].
      intros row Hrow. by apply keep_cells_nil.
  - cbn [drop_pass]. case_decide as Hin.
    + unfold df_drop. rewrite decide_True by done. rewrite IH.
      * cbn [columns rows]. f_equal. f_equal.
        -- rewrite list_filter_filter. apply list_filter_iff. intros c.
           rewrite not_elem_of_cons. tauto.
        -- rewrite <- list_fmap_compose. apply list_fmap_ext. intros _ row _.
           apply keep_cells_cons.
      * unfold df_wf. cbn [columns rows]. apply Forall_fmap.
        eapply Forall_impl; [exact Hwf|]. intros row Hrow. simpl.
        unfold drop_cells. by apply (length_filter_zip (λ c, c ≠ name)).
    + rewrite IH by done. f_equal. f_equal.
      * apply filter_ext_in. intros c Hc. rewrite not_elem_of_cons.
        split; [|tauto]. intros ?. split; [|done]. by intros ->.
      * apply list_fmap_ext. intros _ row _. by apply keep_cells_absent.
Qed.

Lemma length_insert_at {A} loc (x : A) l : length (insert_at loc x l) = S (length l).
Proof.
  unfold insert_at. rewrite length_app. simpl. rewrite length_take, length_drop. lia.
Qed.

(** The table the normaliser computes, in one step: the columns renamed all
    at once, the Pay Date column put in third when there is none, and the
    columns of [del_columns] taken out all at once. *)
Lemma normalise_closed filename df df' :
  df_wf df →
  normalise filename df = Ok df' →
  let cols := with_pay_date (columns df) "Pay Date" (rename_name <$> columns df) in
  df'
  = mkDataFrame (filter (λ c, c ∉ del_columns) cols)
      ((λ row, keep_cells cols del_columns
                 (with_pay_date (columns df) (CStr (splitext filename).1) row))
         <$> rows df).
Proof.
  intros Hwf. unfold normalise, pay_date_pass, with_pay_date.
  rewrite (decide_ext _ _ _ _ (pay_date_rename_pass df)).
  case_decide as Hpd.
  - rewrite drop_pass_closed.
    + intros [= <-]. by rewrite rename_pass_columns, rename_pass_rows.
    + unfold df_wf. by rewrite rename_pass_rows, rename_pass_length.
  - unfold df_insert. rewrite decide_False by (by rewrite pay_date_rename_pass).
    case_decide as Hlen; [|done]. rewrite drop_pass_closed.
    + intros [= <-]. cbn [columns rows].
      rewrite rename_pass_columns, rename_pass_rows.
      by rewrite <- list_fmap_compose.
    + unfold df_wf. cbn [columns rows]. rewrite rename_pass_rows.
      apply Forall_fmap. eapply Forall_impl; [exact Hwf|]. intros row Hrow. simpl.
      by rewrite !length_insert_at, rename_pass_length, Hrow.
Qed.

(** When the normaliser fails on a table. *)
Lemma normalise_raise_cases filename df e :
  normalise filename df = Raise e
  ↔ e = IndexError ∧ ("Pay Date" ∉ columns df) ∧ (length (columns df) < 2)%nat.
Proof.
  unfold normalise, pay_date_pass.
  rewrite (decide_ext _ _ _ _ (pay_date_rename_pass df)).
  case_decide as Hpd.
  - destruct (drop_pass_columns del_columns (rename_pass df)) as (df' & -> & _).
    split; [done|]. by intros (_ & ? & _).
  - unfold df_insert. rewrite decide_False by (by rewrite pay_date_rename_pass).
    rewrite rename_pass_length. case_decide as Hlen.
    + match goal with |- context [drop_pass ?n ?d] =>
        destruct (drop_pass_columns n d) as (df' & -> & _) end.
      split; [done|]. intros (_ & _ & ?). lia.
    + split; [intros [= <-]; split_and!; [done..|lia]|]. by intros (-> & _).
Qed.

(** X6: the only way the normaliser can fail on a table is the IndexError of
    [df.insert(2, ...)]: it happens exactly when the table has no Pay Date
    column and fewer than two columns. *)
Theorem normalise_raises (filename : string) (df : DataFrame) (e : exn) :
  normalise filename df = Raise e
  ↔ e = IndexError ∧ ("Pay Date" ∉ columns df) ∧ (length (columns df) < 2)%nat.
Proof. apply normalise_raise_cases. Qed.

(** X7: the table the normaliser computes for a rectangular table, in closed
    form: the header is the old one with every key of [rename_columns]
    replaced by its value, Pay Date put in as third label when it was not
    there, and the labels of [del_columns] taken out; every row goes through
    the same steps, the Pay Date cell being the file name without its
    extension. *)
Theorem normalise_closed_form (filename : string) (df df' : DataFrame) :
  df_wf df →
  normalise filename df = Ok df' →
  let cols := with_pay_date (columns df) "Pay Date" (rename_name <$> columns df) in
  columns df' = filter (λ c, c ∉ del_columns) cols
  ∧ rows df'
    = (λ row, keep_cells cols del_columns
                (with_pay_date (columns df) (CStr (splitext filename).1) row))
        <$> rows df.
Proof. intros Hwf Hn cols. by rewrite (normalise_closed filename df df' Hwf Hn). Qed.

Lemma normalise_closed_form_witness :
  df_wf undated_file
  ∧ columns (mkDataFrame
      ["Supplier"; "Description 1"; "Pay Date"; "Description 2"; "Description 3"; "Amount"]
      [[CStr "ACME"; CStr "grant"; CStr "2023-2"; CStr "x"; CStr "y"; CStr "500.00"]])
    = filter (λ c, c ∉ del_columns)
        (with_pay_date (columns undated_file) "Pay Date"
           (rename_name <$> columns undated_file)).
Proof.
  assert (df_wf undated_file) as Hwf.
  { apply (bool_decide_unpack _). vm_compute. exact I. }
  split; [exact Hwf|].
  apply (normalise_closed_form "2023-2.csv" undated_file _ Hwf). reflexivity.
Defined.

(** X8: normalising keeps a table rectangular and neither adds nor removes
    rows. *)
Theorem normalise_keeps_shape (filename : string) (df df' : DataFrame) :
  df_wf df →
  normalise filename df = Ok df' →
  df_wf df' ∧ length (rows df') = length (rows df).
Proof.
  intros Hwf Hn. rewrite (normalise_closed filename df df' Hwf Hn).
  unfold df_wf. cbn [columns rows]. rewrite length_fmap. split; [|done].
  apply Forall_fmap. eapply Forall_impl; [exact Hwf|]. intros row Hrow. simpl.
  unfold keep_cells. apply (length_filter_zip (λ c, c ∉ del_columns)).
  unfold with_pay_date. case_decide; rewrite ?length_insert_at, length_fmap; by rewrite Hrow.
Qed.

Lemma normalise_keeps_shape_witness :
  df_wf undated_file
  ∧ length (rows (mkDataFrame
      ["Supplier"; "Description 1"; "Pay Date"; "Description 2"; "Description 3"; "Amount"]
      [[CStr "ACME"; CStr "grant"; CStr "2023-2"; CStr "x"; CStr "y"; CStr "500.00"]]))
    = length (rows undated_file).
Proof.
  assert (df_wf undated_file) as Hwf.
  { apply (bool_decide_unpack _). vm_compute. exact I. }
  split; [exact Hwf|].
  apply (normalise_keeps_shape "2023-2.csv" undated_file _ Hwf). reflexivity.
Defined.

(** ** The normaliser cell, however it ends *)

(** One iteration on an entry of the directory: either the table is written
    back under the same name, or nothing changes. *)
Lemma normalise_file_cases filename w raw :
  csv_files w !! filename = Some raw →
  is_csv filename →
  match normalise filename raw with
  | Ok df' =>
      normalise_file filename w
      = (Ok tt,
         set_csv_files (<[filename := encode_df df']> (csv_files w))
           (set_stdout
              (stdout w ++ (if decide (length (columns df') ≠ 6%nat) then [filename] else []))
              w))
  | Raise e => normalise_file filename w = (Raise e, w)
  end.
Proof.
  intros Hraw Hcsv. destruct (normalise filename raw) as [df'|e] eqn:Hn.
  - apply normalise_file_ok; [done|]. unfold normalised_file. by rewrite Hraw, Hn.
  - unfold normalise_file. rewrite Hcsv.
    erewrite bind_ok by (by apply read_csv_latin1).
    erewrite bind_raise; [done|]. unfold lift. by rewrite Hn.
Qed.

Lemma normalise_file_frame filename w :
  dom (csv_files (normalise_file filename w).2) = dom (csv_files w)
  ∧ cwd_files (normalise_file filename w).2 = cwd_files w
  ∧ ∀ fn, fn ≠ filename ∨ ¬ is_csv filename →
          csv_files (normalise_file filename w).2 !! fn = csv_files w !! fn.
Proof.
  destruct (decide (is_csv filename)) as [Hcsv|Hcsv];
    [|by rewrite normalise_file_skip].
  destruct (csv_files w !! filename) as [raw|] eqn:Hraw.
  - pose proof (normalise_file_cases filename w raw Hraw Hcsv) as H.
    destruct (normalise filename raw) as [df'|e]; rewrite H; [|done]. simpl.
    split_and!; [|done|].
    + apply dom_insert_lookup_L. by eexists.
    + intros fn [Hne|?]; [|done]. by rewrite lookup_insert_ne.
  - assert (normalise_file filename w = (Raise (FileNotFoundError filename), w)) as ->; [|done].
    unfold normalise_file. rewrite Hcsv. apply bind_raise.
    unfold read_csv. by rewrite Hraw.
Qed.

Lemma normalise_cell_frame listing : ∀ w,
  dom (csv_files (normalise_cell listing w).2) = dom (csv_files w)
  ∧ cwd_files (normalise_cell listing w).2 = cwd_files w
  ∧ ∀ fn, ¬ (fn ∈ listing ∧ is_csv fn) →
          csv_files (normalise_cell listing w).2 !! fn = csv_files w !! fn.
Proof.
  induction listing as [|f l IH]; intros w; [done|].
  unfold normalise_cell in *. cbn [for_]. unfold bind.
  destruct (normalise_file_frame f w) as (Hd & Hc & Hf).
  destruct (normalise_file f w) as [[[]|e] w1] eqn:E; cbn [snd] in *.
  - destruct (IH w1) as (Hd' & Hc' & Hf'). split_and!; [congruence..|].
    intros fn Hfn. rewrite Hf', Hf; [done| |].
    + destruct (decide (fn = f)) as [->|]; [|by left]. right. intros ?.
      apply Hfn. split; [by left|done].
    + intros [? ?]. apply Hfn. split; [by right|done].
  - split_and!; [done..|]. intros fn Hfn. apply Hf.
    destruct (decide (fn = f)) as [->|]; [|by left]. right. intros ?.
    apply Hfn. split; [by left|done].
Qed.

(** X9: however the normaliser cell ends, normally or with an exception
    half-way, the directory holds files under exactly the names it held
    before: no file is created or deleted, nothing outside the directory is
    touched, and the entries that are not [.csv] entries of the listing keep
    their tables. *)
Theorem normalise_cell_keeps_names (listing : list string) (w : world) :
  dom (csv_files (normalise_cell listing w).2) = dom (csv_files w)
  ∧ cwd_files (normalise_cell listing w).2 = cwd_files w
  ∧ ∀ fn, ¬ (fn ∈ listing ∧ is_csv fn) →
          csv_files (normalise_cell listing w).2 !! fn = csv_files w !! fn.
Proof. apply normalise_cell_frame. Qed.

(** How the loop of the normaliser can stop: at a [.csv] entry whose table
    makes [df.insert] fail, the [.csv] entries before it rewritten and
    nothing else.  (Reading is not what stops it here: files that pandas
    cannot parse are not part of the model.) *)
Lemma normalise_cell_raise_cases (listing : list string) (w w' : world) (e : exn) :
  NoDup listing →
  (∀ fn, fn ∈ listing → is_Some (csv_files w !! fn)) →
  normalise_cell listing w = (Raise e, w') →
  e = IndexError
  ∧ ∃ pre bad post raw,
      listing = pre ++ bad :: post
      ∧ is_csv bad
      ∧ csv_files w !! bad = Some raw
      ∧ ("Pay Date" ∉ columns raw) ∧ (length (columns raw) < 2)%nat
      ∧ (∀ fn, fn ∈ pre → is_csv fn →
           csv_files w' !! fn = encode_df <$> normalised_file w fn)
      ∧ (∀ fn, ¬ (fn ∈ pre ∧ is_csv fn) → csv_files w' !! fn = csv_files w !! fn).
Proof.
  revert w. induction listing as [|f l IH]; intros w Hnd Hdir; [done|].
  apply NoDup_cons in Hnd as [Hf Hnd].
  unfold normalise_cell in *. cbn [for_].
  destruct (decide (is_csv f)) as [Hcsv|Hcsv].
  - destruct (Hdir f) as [raw Hraw]; [by left|].
    pose proof (normalise_file_cases f w raw Hraw Hcsv) as Hstep.
    destruct (normalise f raw) as [df'|e'] eqn:Hn.
    + erewrite bind_ok by exact Hstep.
      set (w1 := set_csv_files _ _).
      assert (csv_files w1 = <[f := encode_df df']> (csv_files w)) as E by done.
      intros Hrun. destruct (IH w1 Hnd) as (-> & pre & bad & post & raw' & H);
        [|exact Hrun|].
      { intros fn Hfn. rewrite E, lookup_insert_ne by (by intros <-).
        apply Hdir. by right. }
      destruct H as (-> & Hbad & Hraw' & Hpd & Hlen & Hpre & Hrest).
      split; [done|]. exists (f :: pre), bad, post, raw'.
      assert (bad ≠ f) as Hne.
      { intros ->. apply Hf. apply elem_of_app. right. by left. }
      split_and!; try done.
      * by rewrite E, lookup_insert_ne in Hraw'.
      * intros fn [->|Hfn]%elem_of_cons Hc.
        -- rewrite Hrest.
           ++ rewrite E, lookup_insert_eq. unfold normalised_file. by rewrite Hraw, Hn.
           ++ intros [Hin _]. apply Hf. apply elem_of_app. by left.
        -- rewrite (Hpre fn Hfn Hc).
           rewrite (normalised_file_insert w w1 f _ fn E); [done|].
           intros ->. apply Hf. apply elem_of_app. by left.
      * intros fn Hfn. rewrite Hrest.
        -- rewrite E, lookup_insert_ne; [done|]. intros <-. apply Hfn.
           split; [by left|done].
        -- intros [? ?]. apply Hfn. split; [by right|done].
    + erewrite bind_raise by exact Hstep. intros [= <- <-].
      apply normalise_raise_cases in Hn as (-> & Hpd & Hlen).
      split; [done|]. exists [], f, l, raw. split_and!; try done.
      intros fn []%elem_of_nil.
  - erewrite bind_ok by (by apply normalise_file_skip).
    intros Hrun. destruct (IH w Hnd) as (-> & pre & bad & post & raw' & H);
      [|exact Hrun|].
    { intros fn Hfn. apply Hdir. by right. }
    destruct H as (-> & Hbad & Hraw' & Hpd & Hlen & Hpre & Hrest).
    split; [done|]. exists (f :: pre), bad, post, raw'. split_and!; try done.
    + intros fn [->|Hfn]%elem_of_cons Hc; [done|]. by apply Hpre.
    + intros fn Hfn. apply Hrest. intros [? ?]. apply Hfn. split; [by right|done].
Qed.

(** X10: when the normaliser cell, run on entries of the directory, ends
    with an exception, it has stopped at one [.csv] entry of the listing:
    the [.csv] entries before it, in listing order, have been rewritten with
    their normalised tables, and every other entry, the one it stopped at
    included, is as it was, so the directory is left partly normalised.
    When the exception is the IndexError of [df.insert], the table it
    stopped at has no Pay Date column and fewer than two columns. *)
Theorem normalise_cell_stops_half_way (listing : list string) (w w' : world) (e : exn) :
  NoDup listing →
  (∀ fn, fn ∈ listing → is_Some (csv_files w !! fn)) →
  normalise_cell listing w = (Raise e, w') →
  ∃ pre bad post raw,
    listing = pre ++ bad :: post
    ∧ is_csv bad
    ∧ csv_files w !! bad = Some raw
    ∧ csv_files w' !! bad = Some raw
    ∧ (e = IndexError →
       ("Pay Date" ∉ columns raw) ∧ (length (columns raw) < 2)%nat)
    ∧ (∀ fn, fn ∈ pre → is_csv fn →
         csv_files w' !! fn = encode_df <$> normalised_file w fn)
    ∧ (∀ fn, ¬ (fn ∈ pre ∧ is_csv fn) → csv_files w' !! fn = csv_files w !! fn).
Proof.
  intros Hnd Hdir Hrun.
  destruct (normalise_cell_raise_cases listing w w' e Hnd Hdir Hrun)
    as (_ & pre & bad & post & raw & -> & Hbad & Hraw & Hpd & Hlen & Hpre & Hrest).
  exists pre, bad, post, raw. split_and!; try done.
  rewrite Hrest; [done|]. intros [Hin _].
  apply NoDup_app in Hnd as (_ & Hnd & _). apply (Hnd bad Hin). by left.
Qed.

Lemma normalise_cell_stops_half_way_witness :
  let narrow := mkDataFrame ["Amount"] [[CStr "12.50"]] in
  let w := mkWorld {[ "2023-1.csv" := narrow; "2023-2.csv" := undated_file ]} ∅ "/" [] in
  let listing := ["2023-2.csv"; "2023-1.csv"] in
  let w' := (normalise_cell listing w).2 in
  NoDup listing
  ∧ normalise_cell listing w = (Raise IndexError, w')
  ∧ ∃ pre bad post raw,
      listing = pre ++ bad :: post
      ∧ is_csv bad
      ∧ csv_files w !! bad = Some raw
      ∧ csv_files w' !! bad = Some raw
      ∧ (IndexError = IndexError →
         ("Pay Date" ∉ columns raw) ∧ (length (columns raw) < 2)%nat)
      ∧ (∀ fn, fn ∈ pre → is_csv fn →
           csv_files w' !! fn = encode_df <$> normalised_file w fn)
      ∧ (∀ fn, ¬ (fn ∈ pre ∧ is_csv fn) → csv_files w' !! fn = csv_files w !! fn).
Proof.
  intros narrow w listing w'.
  assert (NoDup listing) as Hnd by by_compute.
  assert (∀ fn, fn ∈ listing → is_Some (csv_files w !! fn)) as Hdir.
  { intros fn. unfold listing. rewrite !elem_of_cons, elem_of_nil.
    intros [->|[->|[]]]; eexists; by vm_compute. }
  assert (normalise_cell listing w = (Raise IndexError, w')) as Hrun by (by vm_compute).
  split; [exact Hnd|]. split; [exact Hrun|].
  exact (normalise_cell_stops_half_way listing w w' IndexError Hnd Hdir Hrun).
Defined.

(** ** The validator, more *)

Lemma sorted_permutation l l' : l ≡ₚ l' → sorted l = sorted l'.
Proof.
  intros Hp. apply (StronglySorted_unique_strong (λ a b, String.leb a b = true)).
  - intros a b _ _ H1 H2. by apply String.leb_antisym.
  - apply sorted_ascending.
  - apply sorted_ascending.
  - by rewrite !sorted_perm.
Qed.

(** X11: the validator sorts the listing before it looks at it, so what it
    does (its result, what it prints, the file it names) does not depend on
    the order in which [os.listdir] returns the entries. *)
Theorem validate_cell_order_independent (listing listing' : list string) (w : world) :
  listing ≡ₚ listing' → validate_cell listing w = validate_cell listing' w.
Proof.
  intros Hp. unfold validate_cell. by rewrite (sorted_permutation listing listing' Hp).
Qed.

Lemma validate_cell_order_independent_witness :
  let abc := mkDataFrame ["A"; "B"; "C"] [] in
  let acb := mkDataFrame ["A"; "C"; "B"] [] in
  let w := mkWorld {[ "1.csv" := abc; "2.csv" := acb; "3.csv" := abc ]} ∅ "/" [] in
  ["3.csv"; "1.csv"; "2.csv"] ≡ₚ ["2.csv"; "3.csv"; "1.csv"]
  ∧ validate_cell ["3.csv"; "1.csv"; "2.csv"] w
    = validate_cell ["2.csv"; "3.csv"; "1.csv"] w.
Proof.
  intros abc acb w.
  assert (["3.csv"; "1.csv"; "2.csv"] ≡ₚ ["2.csv"; "3.csv"; "1.csv"]) as Hp by by_compute.
  split; [exact Hp|]. exact (validate_cell_order_independent _ _ w Hp).
Defined.

Lemma read_csv_inv enc filename w r w' :
  read_csv enc filename w = (r, w') →
  w' = w
  ∧ match r with
    | Ok df => ∃ raw, csv_files w !! filename = Some raw ∧ decode_df enc raw = Some df
    | Raise e =>
        (e = FileNotFoundError filename ∧ csv_files w !! filename = None)
        ∨ (e = UnicodeDecodeError ∧ is_Some (csv_files w !! filename))
    end.
Proof.
  unfold read_csv. destruct (csv_files w !! filename) as [raw|].
  - destruct (decode_df enc raw) as [df|] eqn:E; intros [= <- <-]; (split; [done|]).
    + by exists raw.
    + right. split; [done|]. by eexists.
  - intros [= <- <-]. split; [done|]. by left.
Qed.

Lemma check_file_inv column_names file w r w' :
  check_file column_names file w = (r, w') →
  csv_files w' = csv_files w
  ∧ match r with
    | Ok _ => is_Some (columns_of w file)
    | Raise e => e ≠ IndexError
    end.
Proof.
  unfold check_file, bind at 1.
  destruct (read_csv Utf8 file w) as [[df|e] w1] eqn:Hr;
    apply read_csv_inv in Hr as [-> Hr].
  - destruct Hr as (raw & Hraw & Hdec).
    assert (is_Some (columns_of w file)) as Hsome.
    { unfold columns_of. rewrite Hraw. simpl. rewrite Hdec. by eexists. }
    case_decide as Hc.
    + unfold bind, print, exit, ret. by intros [= <- <-].
    + by intros [= <- <-].
  - intros [= <- <-]. split; [done|]. by destruct Hr as [[-> _]|[-> _]].
Qed.

Lemma check_all_inv column_names files : ∀ w r w',
  for_ files (check_file column_names) w = (r, w') →
  csv_files w' = csv_files w
  ∧ match r with
    | Ok _ => ∀ fn, fn ∈ files → is_Some (columns_of w fn)
    | Raise e => e ≠ IndexError
    end.
Proof.
  induction files as [|f l IH]; intros w r w'.
  - intros [= <- <-]. split; [done|]. by intros ? ?%elem_of_nil.
  - cbn [for_]. unfold bind at 1.
    destruct (check_file column_names f w) as [[[]|e] w1] eqn:Hf;
      apply check_file_inv in Hf as [E Hf].
    + intros Hl. apply IH in Hl as [E' Hl]. split; [congruence|].
      destruct r as [[]|e]; [|done].
      intros fn [->|Hfn]%elem_of_cons; [done|].
      rewrite <- (columns_of_ext w w1) by done. by apply Hl.
    + by intros [= <- <-].
Qed.

(** X12: the validator ends with an IndexError exactly when the listing is
    empty ([csv_files[0]] on an empty list), and then it has printed
    nothing. *)
Theorem validate_cell_index_error (listing : list string) (w w' : world) :
  validate_cell listing w = (Raise IndexError, w') ↔ listing = [] ∧ w' = w.
Proof.
  split; [|by intros [-> ->]].
  unfold validate_cell. destruct (sorted listing) as [|first rest] eqn:Hs.
  - intros [= <-]. split; [|done]. apply Permutation_nil_r. by rewrite <- Hs, sorted_perm.
  - unfold bind at 1.
    destruct (read_csv Utf8 first w) as [[df|e] w1] eqn:Hr;
      apply read_csv_inv in Hr as [-> Hr].
    + unfold bind at 1.
      destruct (for_ rest _ w) as [[[]|e] w1] eqn:Hl; apply check_all_inv in Hl as [_ Hl].
      * done.
      * by intros [= -> _].
    + intros [= -> _]. by destruct Hr as [[? _]|[? _]].
Qed.

(** What a run of the validator to its end tells about the directory. *)
Lemma validate_cell_inv listing w w1 :
  validate_cell listing w = (Ok tt, w1) →
  ∃ first rest column_names,
    sorted listing = first :: rest
    ∧ columns_of w first = Some column_names
    ∧ (∀ fn, fn ∈ rest → is_Some (columns_of w fn)).
Proof.
  unfold validate_cell. destruct (sorted listing) as [|first rest] eqn:Hs; [done|].
  unfold bind at 1.
  destruct (read_csv Utf8 first w) as [[df|e] w0] eqn:Hr; [|done].
  apply read_csv_inv in Hr as [-> (raw & Hraw & Hdec)].
  unfold bind at 1.
  destruct (for_ rest _ w) as [[[]|e] w0] eqn:Hl; [|done].
  apply check_all_inv in Hl as [_ Hrest]. intros _.
  exists first, rest, (columns df). split_and!; [done| |done].
  unfold columns_of. rewrite Hraw. simpl. by rewrite Hdec.
Qed.

Lemma elem_of_mismatches w column_names files fn :
  fn ∈ mismatches w column_names files
  ↔ fn ∈ files ∧ columns_of w fn ≠ Some column_names.
Proof. unfold mismatches. rewrite list_elem_of_filter. tauto. Qed.

(** X25: what the validator cell does on a directory whose entries can all
    be read: the header of the least name in plain sorted order is the
    reference; every other entry is compared with it, in sorted order, as a
    list (names and order); the name of every entry whose header differs is
    printed, not only the first; and the cell always ends normally with the
    line that all columns match, the files untouched. *)
Theorem validate_cell_reports_every_mismatch (listing : list string) (w : world)
    (first : string) (rest : list string) (column_names : list string) :
  sorted listing = first :: rest →
  columns_of w first = Some column_names →
  (∀ fn, fn ∈ rest → is_Some (columns_of w fn)) →
  validate_cell listing w
  = (Ok tt,
     set_stdout (stdout w ++ (mismatch_line <$> mismatches w column_names rest)
                   ++ ["all columns match!"]) w)
  ∧ (∀ fn, fn ∈ mismatches w column_names rest
           ↔ fn ∈ rest ∧ columns_of w fn ≠ Some column_names)
  ∧ (∀ fn, fn ∈ listing → String.leb first fn = true)
  ∧ first :: rest ≡ₚ listing.
Proof.
  intros Hs Hfirst Hrest. split_and!.
  - by apply (validate_cell_run listing w first rest).
  - intros fn. apply elem_of_mismatches.
  - intros fn. by apply sorted_head_least with rest.
  - rewrite <- Hs. apply sorted_perm.
Qed.

Lemma validate_cell_reports_every_mismatch_witness :
  let abc := mkDataFrame ["A"; "B"; "C"] [] in
  let acb := mkDataFrame ["A"; "C"; "B"] [] in
  let w := mkWorld {[ "1.csv" := abc; "2.csv" := acb; "3.csv" := acb; "4.csv" := abc ]}
             ∅ "/" [] in
  let listing := ["3.csv"; "4.csv"; "1.csv"; "2.csv"] in
  sorted listing = ["1.csv"; "2.csv"; "3.csv"; "4.csv"]
  ∧ validate_cell listing w
    = (Ok tt,
       set_stdout ["Column names in 2.csv do not match";
                   "Column names in 3.csv do not match"; "all columns match!"] w).
Proof.
  intros abc acb w listing.
  assert (sorted listing = "1.csv" :: ["2.csv"; "3.csv"; "4.csv"]) as Hs by (by vm_compute).
  assert (columns_of w "1.csv" = Some ["A"; "B"; "C"]) as Hf by (by vm_compute).
  assert (∀ fn, fn ∈ ["2.csv"; "3.csv"; "4.csv"] → is_Some (columns_of w fn)) as Hr.
  { intros fn. rewrite !elem_of_cons, elem_of_nil.
    intros [->|[->|[->|[]]]]; eexists; by vm_compute. }
  split; [exact Hs|].
  rewrite (proj1 (validate_cell_reports_every_mismatch listing w _ _ _ Hs Hf Hr)).
  by vm_compute.
Defined.

(** ** The combiner, more *)

Lemma columns_of_set_stdout o w fn : columns_of (set_stdout o w) fn = columns_of w fn.
Proof. done. Qed.

Lemma csv_frames_nonempty w listing fn :
  (∀ fn, fn ∈ listing → is_csv fn → is_Some (columns_of w fn)) →
  fn ∈ listing → is_csv fn → csv_frames w listing ≠ [].
Proof.
  intros H Hfn Hcsv E. apply (f_equal length) in E.
  rewrite csv_frames_length in E by done. apply length_zero_iff_nil in E.
  assert (fn ∈ filter is_csv listing) as Hin by (by apply list_elem_of_filter).
  rewrite E in Hin. by apply elem_of_nil in Hin.
Qed.

Lemma csv_frames_columns w listing header :
  (∀ fn, fn ∈ listing → is_csv fn → columns_of w fn = Some header) →
  Forall (λ df, columns df = header) (csv_frames w listing).
Proof.
  intros H. apply Forall_forall.
  intros df (fn & raw & Hfn & Hcsv & Hraw & Hdec)%elem_of_csv_frames.
  specialize (H fn Hfn Hcsv). unfold columns_of in H. rewrite Hraw in H. simpl in H.
  rewrite Hdec in H. simpl in H. by injection H.
Qed.

(** X13: when the validator has run to the end and printed nothing but its
    last line, every entry of the listing (with or without the [.csv]
    suffix) is a readable file and all have one and the same header; the
    combiner, run next on any listing of the same entries with a [.csv]
    entry among them, then runs to the end and writes a table with that
    header and as many rows as the [.csv] files have together. *)
Theorem validated_directory_combines (listing listing' : list string) (w w1 : world) :
  validate_cell listing w = (Ok tt, w1) →
  stdout w1 = stdout w ++ ["all columns match!"] →
  listing' ≡ₚ listing →
  (∃ fn, fn ∈ listing ∧ is_csv fn) →
  w1 = set_stdout (stdout w ++ ["all columns match!"]) w
  ∧ ∃ header,
      (∀ fn, fn ∈ listing → columns_of w fn = Some header)
      ∧ ∃ combined,
          combine_cell listing' w1
          = (Ok tt,
             set_cwd_files
               (<["bristol_spending_data.csv" := encode_df combined]> (cwd_files w1)) w1)
          ∧ columns combined = header
          ∧ df_len combined = sum_list (df_len <$> csv_frames w1 listing').
Proof.
  intros Hrun Hout Hp (fn0 & Hfn0 & Hcsv0).
  destruct (validate_cell_inv listing w w1 Hrun)
    as (first & rest & header & Hs & Hfirst & Hrest).
  rewrite (validate_cell_run listing w first rest header Hs Hfirst Hrest) in Hrun.
  injection Hrun as <-. cbn [stdout set_stdout] in Hout.
  apply app_inv_head in Hout.
  assert (mismatches w header rest = []) as Hnone.
  { destruct (mismatches w header rest) as [|fn l]; [done|].
    apply (f_equal length) in Hout. rewrite length_app in Hout. simpl in Hout. lia. }
  rewrite Hnone. cbn [fmap list_fmap app]. split; [done|]. exists header.
  assert (∀ fn, fn ∈ listing → columns_of w fn = Some header) as Hall.
  { intros fn. rewrite <- (sorted_perm listing), Hs.
    intros [->|Hfn]%elem_of_cons; [done|].
    destruct (decide (columns_of w fn = Some header)) as [|Hne]; [done|].
    assert (fn ∈ mismatches w header rest) as Hin by (by apply elem_of_mismatches).
    rewrite Hnone in Hin. by apply elem_of_nil in Hin. }
  split; [done|].
  set (w1 := set_stdout _ w).
  assert (∀ fn, fn ∈ listing' → is_csv fn → columns_of w1 fn = Some header) as Hw1.
  { intros fn Hfn _. unfold w1. rewrite columns_of_set_stdout. apply Hall.
    by rewrite <- Hp. }
  assert (∀ fn, fn ∈ listing' → is_csv fn → is_Some (columns_of w1 fn)) as Hread.
  { intros fn Hfn Hcsv. rewrite Hw1 by done. by eexists. }
  exists (mkDataFrame header (csv_frames w1 listing' ≫= rows)).
  assert (pd_concat (csv_frames w1 listing')
          = Ok (mkDataFrame header (csv_frames w1 listing' ≫= rows))) as Hc.
  { apply pd_concat_same_header.
    - apply (csv_frames_nonempty w1 listing' fn0); [done| |done]. by rewrite Hp.
    - by apply csv_frames_columns. }
  split_and!; [by apply combine_cell_run|done|by apply pd_concat_len].
Qed.

Lemma validated_directory_combines_witness :
  let abc := mkDataFrame ["A"; "B"; "C"] [[CInt 1; CInt 2; CInt 3]] in
  let w := mkWorld {[ "1.csv" := abc; "3.csv" := abc ]} ∅ "/" [] in
  let w1 := set_stdout ["all columns match!"] w in
  validate_cell ["3.csv"; "1.csv"] w = (Ok tt, w1)
  ∧ ∃ header,
      (∀ fn, fn ∈ ["3.csv"; "1.csv"] → columns_of w fn = Some header)
      ∧ ∃ combined,
          combine_cell ["1.csv"; "3.csv"] w1
          = (Ok tt,
             set_cwd_files
               (<["bristol_spending_data.csv" := encode_df combined]> (cwd_files w1)) w1)
          ∧ columns combined = header
          ∧ df_len combined = sum_list (df_len <$> csv_frames w1 ["1.csv"; "3.csv"]).
Proof.
  intros abc w w1.
  assert (validate_cell ["3.csv"; "1.csv"] w = (Ok tt, w1)) as Hrun by (by vm_compute).
  assert (stdout w1 = stdout w ++ ["all columns match!"]) as Hout by (by vm_compute).
  assert (["1.csv"; "3.csv"] ≡ₚ ["3.csv"; "1.csv"]) as Hp by by_compute.
  assert (∃ fn, fn ∈ ["3.csv"; "1.csv"] ∧ is_csv fn) as Hex.
  { exists "1.csv". split; by_compute. }
  split; [exact Hrun|].
  exact (proj2 (validated_directory_combines _ _ w w1 Hrun Hout Hp Hex)).
Defined.

(** X14: when every [.csv] entry can be read, the combiner ends with the
    ValueError of [pd.concat] exactly when the listing has no [.csv] entry;
    it then has written nothing. *)
Theorem combine_cell_nothing_to_concatenate (listing : list string) (w w' : world) :
  (∀ fn, fn ∈ listing → is_csv fn → is_Some (columns_of w fn)) →
  combine_cell listing w = (Raise ValueError, w')
  ↔ filter is_csv listing = [] ∧ w' = w.
Proof.
  intros H.
  assert (csv_frames w listing = [] ↔ filter is_csv listing = []) as <-.
  { rewrite <- !length_zero_iff_nil. by rewrite csv_frames_length. }
  unfold combine_cell.
  rewrite (bind_ok _ _ w (csv_frames w listing) w) by (by apply read_all_ok).
  unfold bind at 1, lift, pd_concat.
  destruct (csv_frames w listing) as [|df0 l] eqn:E.
  - split; [by intros [= <-]|by intros [_ ->]].
  - split; [|by intros [? _]]. by repeat case_decide.
Qed.

Lemma combine_cell_nothing_to_concatenate_witness :
  filter is_csv [".DS_Store"; "notes.txt"] = []
  ∧ combine_cell [".DS_Store"; "notes.txt"] pound_world = (Raise ValueError, pound_world).
Proof.
  assert (∀ fn, fn ∈ [".DS_Store"; "notes.txt"] → is_csv fn
            → is_Some (columns_of pound_world fn)) as H.
  { intros fn. rewrite !elem_of_cons, elem_of_nil. intros [->|[->|[]]] Hc; by vm_compute in Hc. }
  assert (filter is_csv [".DS_Store"; "notes.txt"] = []) as Hf by (by vm_compute).
  split; [exact Hf|].
  exact (proj2 (combine_cell_nothing_to_concatenate _ pound_world pound_world H)
           (conj Hf eq_refl)).
Defined.

(** ** The header made by [pd.concat] *)

Lemma row_get_cons a cols x row c :
  row_get (a :: cols) (x :: row) c = if decide (a = c) then x else row_get cols row c.
Proof.
  unfold row_get. cbn [zip zip_with list_find fst]. case_decide; [done|].
  by destruct (list_find _ _) as [[i [c' v]]|].
Qed.

Lemma reindex_row_id cols : ∀ row,
  NoDup cols → length row = length cols → reindex_row cols cols row = row.
Proof.
  unfold reindex_row. induction cols as [|a l IH]; intros [|x r] Hnd Hlen; try done.
  apply NoDup_cons in Hnd as [Ha Hnd]. rewrite fmap_cons, row_get_cons.
  rewrite decide_True by done. f_equal. rewrite <- (IH r) at 2 by (simpl in Hlen; auto).
  apply list_fmap_ext. intros i c Hc. rewrite row_get_cons.
  rewrite decide_False; [done|]. intros ->. apply Ha. by eapply list_elem_of_lookup_2.
Qed.

Lemma union_columns_acc_spec frames : ∀ acc c,
  c ∈ foldl (λ acc df, acc ++ filter (λ c, c ∉ acc) (columns df)) acc frames
  ↔ c ∈ acc ∨ ∃ df, df ∈ frames ∧ c ∈ columns df.
Proof.
  induction frames as [|df l IH]; intros acc c; simpl.
  - split; [by left|]. intros [?|(? & []%elem_of_nil & _)]. done.
  - rewrite IH, elem_of_app, list_elem_of_filter. split.
    + intros [[?|[_ ?]]|(df' & ? & ?)]; [by left|right..].
      * exists df. split; [by left|done].
      * exists df'. split; [by right|done].
    + intros [?|(df' & [->|?]%elem_of_cons & ?)]; [by left; left| |].
      * left. destruct (decide (c ∈ acc)); [by left|by right].
      * right. by exists df'.
Qed.

Lemma union_columns_acc_NoDup frames : ∀ acc,
  NoDup acc → Forall (λ df, NoDup (columns df)) frames →
  NoDup (foldl (λ acc df, acc ++ filter (λ c, c ∉ acc) (columns df)) acc frames).
Proof.
  induction frames as [|df l IH]; intros acc Hacc Hall; [done|]. simpl.
  apply Forall_cons in Hall as [Hdf Hall]. apply IH; [|done].
  apply NoDup_app. split_and!; [done| |by apply NoDup_filter].
  by intros c Hc [? _]%list_elem_of_filter.
Qed.

(** The table that [pd.concat] makes of frames without repeated labels. *)
Lemma pd_concat_aligned frames combined :
  Forall (λ df, NoDup (columns df)) frames →
  Forall df_wf frames →
  pd_concat frames = Ok combined →
  NoDup (columns combined)
  ∧ (∀ c, c ∈ columns combined ↔ ∃ df, df ∈ frames ∧ c ∈ columns df)
  ∧ rows combined
    = frames ≫= (λ df, reindex_row (columns df) (columns combined) <$> rows df).
Proof.
  intros Hnd Hwf. unfold pd_concat. destruct frames as [|df0 l] eqn:Hf; [done|].
  rewrite <- Hf in Hnd, Hwf |- *.
  assert (df0 ∈ frames) as Hin0 by (rewrite Hf; by left). clear Hf.
  case_decide as Hsame.
  - intros [= <-]. cbn [columns rows]. rewrite Forall_forall in Hsame, Hnd, Hwf.
    split_and!.
    + by apply Hnd.
    + intros c. split; [by exists df0|]. intros (df & Hdf & Hc).
      by rewrite <- (Hsame df Hdf).
    + clear Hin0. induction frames as [|df fs IH]; [done|].
      rewrite !bind_cons. f_equal.
      * symmetry. apply fmap_id_iff, Forall_forall. intros row Hrow.
        rewrite <- (Hsame df) by (by left). apply reindex_row_id.
        -- apply Hnd. by left.
        -- specialize (Hwf df (list_elem_of_here _ _)). unfold df_wf in Hwf.
           rewrite Forall_forall in Hwf. by apply Hwf.
      * apply IH; intros; [apply Hnd|apply Hwf|apply Hsame]; by right.
  - rewrite decide_True by done. intros [= <-]. cbn [columns rows]. split_and!.
    + apply union_columns_acc_NoDup; [constructor|done].
    + intros c. unfold union_columns. rewrite union_columns_acc_spec, elem_of_nil.
      tauto.
    + done.
Qed.

Lemma union_columns_acc_prefix frames : ∀ acc,
  acc `prefix_of` foldl (λ acc df, acc ++ filter (λ c, c ∉ acc) (columns df)) acc frames.
Proof.
  induction frames as [|df l IH]; intros acc; [done|]. simpl.
  etrans; [|apply IH]. by apply prefix_app_r.
Qed.

(** X15: the shape of what [pd.concat] makes of rectangular frames whose
    headers have no repeated label, alike or not: the header of the result
    has every label of every frame exactly once and starts with the header
    of the first frame, the result is rectangular, and it has as many rows
    as the frames have together. *)
Theorem pd_concat_header_is_union (frames : list DataFrame) (combined : DataFrame) :
  Forall (λ df, NoDup (columns df)) frames →
  Forall df_wf frames →
  pd_concat frames = Ok combined →
  NoDup (columns combined)
  ∧ (∀ c, c ∈ columns combined ↔ ∃ df, df ∈ frames ∧ c ∈ columns df)
  ∧ (∀ df0, head frames = Some df0 → columns df0 `prefix_of` columns combined)
  ∧ df_wf combined
  ∧ df_len combined = sum_list (df_len <$> frames).
Proof.
  intros Hnd Hwf Hc.
  destruct (pd_concat_aligned frames combined Hnd Hwf Hc) as (H1 & H2 & H3).
  split_and!; [done|done| | |by apply pd_concat_len].
  - intros df0 Hhead. revert Hc. unfold pd_concat.
    destruct frames as [|df l] eqn:Hf; [done|]. simpl in Hhead. injection Hhead as ->.
    rewrite <- Hf. case_decide; [by intros [= <-]|]. case_decide; [|done].
    intros [= <-]. cbn [columns]. rewrite Hf. unfold union_columns. cbn [foldl app].
    etrans; [|apply union_columns_acc_prefix].
    rewrite filter_all by (intros ? _; apply not_elem_of_nil). done.
  - unfold df_wf. rewrite H3. apply Forall_forall.
    intros row (df & (r & -> & Hr)%list_elem_of_fmap & Hdf)%list_elem_of_bind.
    unfold reindex_row. by rewrite length_fmap.
Qed.

Lemma pd_concat_header_is_union_witness :
  let ab := mkDataFrame ["A"; "B"] [[CStr "a"; CStr "b"]] in
  let bc := mkDataFrame ["B"; "C"] [[CStr "b"; CStr "c"]] in
  ∃ combined,
    pd_concat [ab; bc] = Ok combined
    ∧ columns combined = ["A"; "B"; "C"]
    ∧ NoDup (columns combined)
    ∧ df_len combined = 2%nat.
Proof.
  intros ab bc.
  assert (Forall (λ df, NoDup (columns df)) [ab; bc]) as Hnd by by_compute.
  assert (Forall df_wf [ab; bc]) as Hwf by by_compute.
  destruct (pd_concat [ab; bc]) as [combined|e] eqn:Hc; [|by vm_compute in Hc].
  destruct (pd_concat_header_is_union [ab; bc] combined Hnd Hwf Hc)
    as (H1 & _ & _ & _ & H5).
  exists combined. split; [done|]. split; [|split; [exact H1|exact H5]].
  vm_compute in Hc. by injection Hc as <-.
Defined.

(** ** The sanitiser, more *)

(** X16: cleaning a cell twice is the same as cleaning it once. *)
Theorem clean_text_idempotent (x : cell) :
  clean_text (clean_text x chars_to_remove) chars_to_remove
  = clean_text x chars_to_remove.
Proof.
  destruct x as [s| | |]; try done.
  rewrite !clean_text_str, string_filter_filter. f_equal.
  apply string_filter_ext. intros a. by destruct (denied a).
Qed.

Lemma string_filter_app p s t :
  string_filter p (s +:+ t) = string_filter p s +:+ string_filter p t.
Proof.
  induction s as [|c s IH]; [by rewrite !app_empty_l|].
  rewrite app_String. simpl. destruct (p c); by rewrite ?app_String, IH.
Qed.

(** What is left of the UTF-8 bytes of a character when the bytes 194 and
    195 are taken out. *)
Lemma clean_utf8_char c :
  string_filter (λ a, negb (denied a)) (utf8_char c)
  = String (if (N_of_ascii c <? 192)%N then c else ascii_of_N (N_of_ascii c - 64)) "".
Proof. destruct c as [[] [] [] [] [] [] [] []]; reflexivity. Qed.



(** X18: a mis-decoded character from 192 on (the accented letters) is not
    given back: what [clean_text] leaves in its place is the character 64
    code points below it. *)
Theorem clean_text_shifts_high_characters (c : ascii) (t : string) :
  (192 ≤ N_of_ascii c)%N →
  clean_text (CStr (encode_utf8 (String c t))) chars_to_remove
  = match clean_text (CStr (encode_utf8 t)) chars_to_remove with
    | CStr t' => CStr (String (ascii_of_N (N_of_ascii c - 64)) t')
    | x => x
    end
  ∧ ascii_of_N (N_of_ascii c - 64) ≠ c.
Proof.
  intros Hc. split.
  - rewrite !clean_text_str. f_equal. cbn [encode_utf8].
    rewrite string_filter_app, clean_utf8_char.
    by rewrite (proj2 (N.ltb_ge _ _) Hc).
  - intros E. apply (f_equal N_of_ascii) in E.
    pose proof (N_ascii_bounded c) as Hb.
    rewrite N_ascii_embedding in E by lia. lia.
Qed.

Lemma clean_text_shifts_high_characters_witness :
  clean_text (CStr (encode_utf8 (String "233" "cole"))) chars_to_remove
  = CStr (String "169" "cole").
Proof.
  apply (clean_text_shifts_high_characters "233" "cole"). vm_compute. by intros [=].
Defined.

(** ** The quote cell *)

Lemma zip_with_id_columns (P : string → Prop) `{∀ c, Decision (P c)} (f : cell → cell)
    cols : ∀ row,
  length row = length cols →
  (∀ c x, (c, x) ∈ zip cols row → P c → f x = x) →
  zip_with (λ c x, if decide (P c) then f x else x) cols row = row.
Proof.
  induction cols as [|c cols IH]; intros [|x row] Hlen Hf; try done.
  cbn [zip_with]. f_equal.
  - case_decide; [|done]. apply (Hf c); [by left|done].
  - apply IH; [simpl in Hlen; lia|]. intros c' x' Hin. apply Hf. by right.
Qed.

(** X19: on a consolidated table without a column named Amount the quote
    cell stops with a KeyError and writes nothing. *)
Theorem quote_cell_key_error (w : world) (raw df : DataFrame) :
  cwd_files w !! "bristol_spending_data.csv" = Some raw →
  decode_df Utf8 raw = Some df →
  "Amount" ∉ columns df →
  quote_cell w = (Raise (KeyError "Amount"), w).
Proof.
  intros Hraw Hdf Hno. unfold quote_cell.
  erewrite bind_ok; [|unfold read_csv_cwd; by rewrite Hraw, Hdf].
  erewrite bind_raise; [done|]. unfold lift, df_map_column. by rewrite decide_False.
Qed.

Lemma quote_cell_key_error_witness :
  let df := mkDataFrame ["Supplier"; "Paid"] [[CStr "ACME"; CStr "12.50"]] in
  let w := mkWorld ∅ {[ "bristol_spending_data.csv" := encode_df df ]} "/" [] in
  quote_cell w = (Raise (KeyError "Amount"), w).
Proof.
  intros df w. apply (quote_cell_key_error w (encode_df df) df).
  - reflexivity.
  - reflexivity.
  - by_compute.
Defined.

(** X20: [Series.replace] replaces whole values, not parts of them: the
    quote cell changes only the Amount cells that are exactly the
    one-character text of a double quote.  On a table with no such cell (a
    quote inside a longer text does not count) the file it writes holds the
    consolidated table as it was read. *)
Theorem quote_cell_copies (w : world) (raw df : DataFrame) :
  cwd_files w !! "bristol_spending_data.csv" = Some raw →
  decode_df Utf8 raw = Some df →
  "Amount" ∈ columns df →
  df_wf df →
  (∀ row x, row ∈ rows df → ("Amount", x) ∈ zip (columns df) row →
            x ≠ CStr (String "034" "")) →
  quote_cell w
  = (Ok tt, set_cwd_files
              (<["bristol_spending_data_final.csv" := encode_df df]> (cwd_files w)) w).
Proof.
  intros Hraw Hdf Hin Hwf Hq. unfold quote_cell.
  erewrite bind_ok; [|unfold read_csv_cwd; by rewrite Hraw, Hdf].
  erewrite bind_ok; [|unfold lift, df_map_column; by rewrite decide_True].
  unfold to_csv_cwd. do 4 f_equal. destruct df as [cols rs]. cbn [columns rows] in *.
  f_equal. apply fmap_id_iff, Forall_forall. intros row Hrow.
  unfold df_wf in Hwf. rewrite Forall_forall in Hwf.
  apply (zip_with_id_columns (λ c, c = "Amount")); [by apply Hwf|].
  intros c x Hcx ->. unfold series_replace. rewrite decide_False; [done|].
  by apply (Hq row).
Qed.

Lemma quote_cell_copies_witness :
  let df := mkDataFrame ["Supplier"; "Amount"]
              [[CStr "ACME"; CStr (String "034" "12.50")]] in
  let w := mkWorld ∅ {[ "bristol_spending_data.csv" := encode_df df ]} "/" [] in
  quote_cell w
  = (Ok tt, set_cwd_files
              (<["bristol_spending_data_final.csv" := encode_df df]> (cwd_files w)) w).
Proof.
  intros df w. apply (quote_cell_copies w (encode_df df) df).
  - reflexivity.
  - reflexivity.
  - by_compute.
  - by_compute.
  - intros row x ->%list_elem_of_singleton.
    unfold df. cbn [columns zip zip_with]. rewrite !elem_of_cons, elem_of_nil.
    intros [[= ]|[[= ->]|[]]]. by intros [=].
Defined.

(** X21: the quote cell reads the consolidated file, not the file the
    sanitiser wrote, and writes to the sanitiser's output file: run after the
    sanitiser it leaves the working directory exactly as it would have
    without the sanitiser, so nothing of the sanitiser's cleaning is left in
    the final file. *)
Theorem quote_cell_overwrites_sanitiser (w w1 w2 : world) :
  sanitise_cell w = (Ok tt, w1) →
  quote_cell w = (Ok tt, w2) →
  quote_cell w1 = (Ok tt, w2).
Proof.
  intros Hs Hq. unfold sanitise_cell, bind, read_csv_cwd in Hs.
  destruct (cwd_files w !! "bristol_spending_data.csv") as [raw|] eqn:Hraw; [|done].
  destruct (decode_df Utf8 raw) as [df|] eqn:Hdf; [|done].
  unfold to_csv_cwd in Hs. injection Hs as <-.
  unfold quote_cell in *.
  erewrite bind_ok in Hq; [|unfold read_csv_cwd; by rewrite Hraw, Hdf].
  erewrite bind_ok;
    [|unfold read_csv_cwd; cbn [cwd_files set_cwd_files];
      rewrite lookup_insert_ne by done; by rewrite Hraw, Hdf].
  unfold bind, lift in *. destruct (df_map_column _ _ df) as [df2|]; [|done].
  unfold to_csv_cwd in *. injection Hq as <-. f_equal.
  unfold set_cwd_files. cbn. by rewrite insert_insert_eq.
Qed.

Lemma quote_cell_overwrites_sanitiser_witness :
  let df := mkDataFrame ["Supplier"; "Amount"]
              [[CStr (String "194" "ACME"); CStr "12.50"]] in
  let w := mkWorld ∅ {[ "bristol_spending_data.csv" := encode_df df ]} "/" [] in
  quote_cell (sanitise_cell w).2 = quote_cell w.
Proof.
  intros df w.
  assert (sanitise_cell w = (Ok tt, (sanitise_cell w).2)) as H1 by (by vm_compute).
  assert (quote_cell w = (Ok tt, (quote_cell w).2)) as H2 by (by vm_compute).
  rewrite (quote_cell_overwrites_sanitiser w _ _ H1 H2). exact (eq_sym H2).
Defined.

(** ** Running the rename cell on a directory that has the labels already *)

Lemma os_rename_size os src dst w :
  (size (csv_files (os_rename os src dst w).2) ≤ size (csv_files w))%nat.
Proof.
  unfold os_rename. destruct (csv_files w !! src) as [df|] eqn:Hsrc; [|done].
  assert (size (<[dst := df]> (delete src (csv_files w))) ≤ size (csv_files w))%nat.
  { rewrite map_size_insert, map_size_delete, Hsrc.
    pose proof (map_size_non_empty_iff (csv_files w)) as Hne.
    assert (csv_files w ≠ ∅) as Hne' by (intros E; by rewrite E in Hsrc).
    apply Hne in Hne'. destruct (delete src _ !! dst); simpl; lia. }
  destruct os, (csv_files w !! dst); simpl; done.
Qed.

Lemma rename_step_size os st f w :
  (size (csv_files (rename_step os st f w).2) ≤ size (csv_files w))%nat.
Proof.
  unfold rename_step, bind.
  pose proof (os_rename_size os f (label st.1 st.2) w) as H.
  by destruct (os_rename os f (label st.1 st.2) w) as [[[]|e] w1].
Qed.

Lemma run_rename_size os file_list : ∀ st w,
  (size (csv_files (for_fold file_list st (rename_step os) w).2) ≤ size (csv_files w))%nat.
Proof.
  induction file_list as [|f l IH]; intros st w; [done|].
  cbn [for_fold]. unfold bind.
  pose proof (rename_step_size os st f w) as H.
  destruct (rename_step os st f w) as [[st'|e] w1]; cbn [snd] in *; [|exact H].
  etrans; [apply IH|exact H].
Qed.

(** X23: the rename cell is not safe on a directory in which the label of
    its first step is already the name of another file, as in a directory it
    has renamed before.  On Windows it stops at once with a
    FileExistsError, nothing renamed; elsewhere [os.rename] replaces that
    other file, and the cell leaves the directory with fewer files than it
    found. *)
Theorem rename_cell_rerun_loses_a_file (y m : Z) (listing : list string) (w : world)
    (first : string) (rest : list string) :
  natsorted listing = first :: rest →
  is_Some (csv_files w !! first) →
  is_Some (csv_files w !! label y m) →
  first ≠ label y m →
  rename_cell Windows y m listing w
  = (Raise (FileExistsError (label y m)), set_stdout (stdout w ++ [cwd w]) w)
  ∧ (size (csv_files (rename_cell Posix y m listing w).2) < size (csv_files w))%nat.
Proof.
  intros Hs [df Hdf] [df' Hdf'] Hne. unfold rename_cell. rewrite Hs.
  set (w0 := set_stdout (stdout w ++ [cwd w]) w).
  assert (csv_files w0 = csv_files w) as E0 by done.
  split.
  - erewrite bind_ok by reflexivity. erewrite bind_ok by reflexivity.
    fold w0. cbn [for_fold]. apply bind_raise. apply bind_raise.
    unfold os_rename. cbn [fst snd]. by rewrite E0, Hdf, Hdf'.
  - erewrite bind_ok by reflexivity. erewrite bind_ok by reflexivity.
    fold w0. cbn [for_fold].
    erewrite bind_ok;
      [|unfold rename_step; erewrite bind_ok;
        [reflexivity|unfold os_rename; cbn [fst snd]; by rewrite E0, Hdf]].
    eapply Nat.le_lt_trans; [apply run_rename_size|].
    cbn [csv_files set_csv_files]. rewrite ?E0.
    rewrite map_size_insert_Some by (rewrite lookup_delete_ne by done; by eexists).
    rewrite map_size_delete_Some by (by eexists).
    pose proof (map_size_non_empty_iff (csv_files w)) as Hsz.
    assert (csv_files w ≠ ∅) as Hne' by (intros E; by rewrite E in Hdf).
    apply Hsz in Hne'. lia.
Qed.

Lemma rename_cell_rerun_loses_a_file_witness :
  let w := mkWorld {[ "2023-1.csv" := undated_file; "2023-2.csv" := pound_file ]} ∅ "/" [] in
  rename_cell Windows 2023 2 ["2023-2.csv"; "2023-1.csv"] w
  = (Raise (FileExistsError (label 2023 2)), set_stdout (stdout w ++ [cwd w]) w)
  ∧ (size (csv_files (rename_cell Posix 2023 2 ["2023-2.csv"; "2023-1.csv"] w).2)
     < size (csv_files w))%nat.
Proof.
  intros w.
  apply (rename_cell_rerun_loses_a_file 2023 2 _ w "2023-1.csv" ["2023-2.csv"]).
  - reflexivity.
  - eexists. by vm_compute.
  - eexists. by vm_compute.
  - by vm_compute.
Defined.

(** ** The sign pass, more *)

(** X24: the sign pass changes nothing: the value of its expression is not
    assigned and the line that would write the table is commented out, so
    whatever the expression comes to, and whether the cell ends normally or
    with an exception, both directories and the console are as before. *)
Theorem sign_cell_changes_nothing (mask_astype_float : list cell → result unit)
    (w : world) :
  (sign_cell mask_astype_float w).2 = w.
Proof.
  unfold sign_cell, bind, read_csv_cwd, lift.
  destruct (cwd_files w !! "bristol_spending_data.csv") as [raw|]; [|done].
  destruct (decode_df Utf8 raw) as [df|]; [|done].
  by destruct (df_getattr df "num").
Qed.
